(** * SigScopeCap: the decode pipeline of [scope_capture.py]

    A shallow embedding of the pure parts of the capture script:
    [parse_value], the block extraction and byte-to-voltage conversion
    of [capture_channel], and the time axis and decimation steps of
    [main]; then [capture_channel] as a whole, the channel selection
    and the capture loop of [main], the resource scan of
    [connect_scope], [get_active_channels] and the rows of [save_csv],
    with the answers of the instrument as inputs.

    Python [int] is modelled as [Z], Python [float] as the binary64
    primitive floats of Rocq, [bytes] as [list byte], [str] as
    [list ascii] (code points below 256) and the [channel_data] dict
    as a [gmap].  A raised exception is a [Raise] result. *)

From Stdlib Require Import ZArith QArith List Sorted Bool Lia.
From Stdlib.Strings Require Import Byte Ascii String.
From Stdlib Require Import Floats.
From Stdlib Require Import DecimalString.
From stdpp Require Import gmap sorting.
Import ListNotations.
Open Scope Z_scope.
Set Warnings "-inexact-float".


(** ** Python results *)

Inductive exn : Type :=
| ValueError
| ZeroDivisionError
| SystemExit.

Inductive result (A : Type) : Type :=
| Ok (a : A)
| Raise (e : exn).
Arguments Ok {A} a.
Arguments Raise {A} e.

#[global] Instance result_bind : MBind result :=
  fun A B k r =>
    match r with
    | Ok a => k a
    | Raise e => Raise e
    end.

(** ** Python numbers *)

(** [float(n)] for a Python [int]: the nearest binary64 value, ties to
    even.  (Python raises [OverflowError] beyond the binary64 range;
    the integers converted here are sample codes and list indexes.) *)
Definition float_of_int (z : Z) : float :=
  SF2Prim (binary_normalize prec emax z 0 false).

(** An integer as an unrounded operand of the binary64 operations. *)
Definition exact_int (z : Z) : spec_float :=
  match z with
  | Z0 => S754_zero false
  | Zpos p => S754_finite false p 0
  | Zneg p => S754_finite true p 0
  end.

(** [a / b] for two Python [int]s with [b] not zero: the exact quotient
    rounded once to the nearest binary64 value.  (The only integer
    divisor of the script is the literal 2.) *)
Definition int_truediv (a b : Z) : float :=
  SF2Prim (SFdiv prec emax (exact_int a) (exact_int b)).

(** The integer a [bytes] object yields for one of its elements. *)
Definition byte_value (b : byte) : Z := Z.of_N (Byte.to_N b).

(** The code point of a character of a [str]. *)
Definition code_point (c : ascii) : Z := Z.of_N (N_of_ascii c).

(** A [str] literal. *)
Definition str_of (s : string) : list ascii := list_ascii_of_string s.

(** ** Sequences *)

(** An index of a slice brought into [0, len]: a negative index counts
    from the end, and what is still out of range is clamped. *)
Definition slice_index (len i : Z) : Z :=
  let i := if i <? 0 then i + len else i in
  if i <? 0 then 0 else if len <? i then len else i.

(** [l[start:stop]] *)
Definition py_slice {A : Type} (l : list A) (start stop : Z) : list A :=
  let len := Z.of_nat (length l) in
  let lo := slice_index len start in
  let hi := slice_index len stop in
  firstn (Z.to_nat (hi - lo)) (skipn (Z.to_nat lo) l).

(** [l.startswith(sub)] *)
Fixpoint starts_with (sub l : list byte) : bool :=
  match sub, l with
  | [], _ => true
  | _ :: _, [] => false
  | x :: sub', y :: l' => Byte.eqb x y && starts_with sub' l'
  end.

(** The same test on the characters of a [str]. *)
Fixpoint str_starts_with (sub l : list ascii) : bool :=
  match sub, l with
  | [], _ => true
  | _ :: _, [] => false
  | x :: sub', y :: l' => Ascii.eqb x y && str_starts_with sub' l'
  end.

(** [s.endswith(suffix)] *)
Definition endswith (s suffix : list ascii) : bool :=
  str_starts_with (rev suffix) (rev s).

(** The search of [find], with [i] the index of the head of [l]. *)
Fixpoint find_from (sub l : list byte) (i : Z) : Z :=
  if starts_with sub l then i
  else match l with
       | [] => -1
       | _ :: l' => find_from sub l' (i + 1)
       end.

(** [raw.find(sub)]: the lowest index where [sub] occurs, or -1. *)
Definition bytes_find (raw sub : list byte) : Z := find_from sub raw 0.

(** ** [int(b)] for a [bytes] argument

    Optional ASCII whitespace, an optional sign, decimal digits that may
    be separated by single underscores, optional whitespace. *)

Definition is_space_byte (b : byte) : bool :=
  let n := byte_value b in
  ((9 <=? n) && (n <=? 13)) || (n =? 32).

Definition digit_of_byte (b : byte) : option Z :=
  let n := byte_value b in
  if (48 <=? n) && (n <=? 57) then Some (n - 48) else None.

Fixpoint skip_spaces (l : list byte) : list byte :=
  match l with
  | b :: l' => if is_space_byte b then skip_spaces l' else l
  | [] => []
  end.

(** The digits after the first one; [acc] is the value read so far.
    Gives the value and what follows the numeral, or [None] for an
    underscore that no digit follows. *)
Fixpoint scan_digits (acc : Z) (l : list byte) : option (Z * list byte) :=
  match l with
  | [] => Some (acc, [])
  | b :: l' =>
      match digit_of_byte b with
      | Some d => scan_digits (10 * acc + d) l'
      | None =>
          if Byte.eqb b "_"%byte then
            match l' with
            | b' :: l'' =>
                match digit_of_byte b' with
                | Some d => scan_digits (10 * acc + d) l''
                | None => None
                end
            | [] => None
            end
          else Some (acc, l)
      end
  end.

Definition int_of_bytes (s : list byte) : result Z :=
  let s1 := skip_spaces s in
  let '(negative, s2) :=
    match s1 with
    | b :: r =>
        if Byte.eqb b "+"%byte then (false, r)
        else if Byte.eqb b "-"%byte then (true, r)
        else (false, s1)
    | [] => (false, [])
    end in
  match s2 with
  | b :: r =>
      match digit_of_byte b with
      | Some d =>
          match scan_digits d r with
          | Some (n, rest) =>
              match skip_spaces rest with
              | [] => Ok (if negative then - n else n)
              | _ :: _ => Raise ValueError
              end
          | None => Raise ValueError
          end
      | None => Raise ValueError
      end
  | [] => Raise ValueError
  end.

(** ** BlockExtractor ([capture_channel], lines 175-181) *)

Definition block_marker : list byte := ["#"%byte; "9"%byte].

(** The slice of the raw response that [int] reads as the length. *)
Definition length_field (raw : list byte) (marker : Z) : list byte :=
  py_slice raw (marker + 2) (marker + 11).

Definition extract_block (raw : list byte) : result (list byte) :=
  let marker := bytes_find raw block_marker in
  if marker =? -1 then Raise ValueError
  else
    data_len ← int_of_bytes (length_field raw marker);
    let data_start := marker + 11 in
    Ok (py_slice raw data_start (data_start + data_len)).

(** A [bytes] literal. *)
Definition bytes_of (s : string) : list byte := list_byte_of_string s.

(** The marker occurs in [raw] at index [j]. *)
Definition marker_at (raw : list byte) (j : nat) : bool :=
  starts_with block_marker (skipn j raw).

(** The wire format: a length field of ASCII decimal digits, read as an
    unsigned decimal integer. *)
Definition is_digit_byte (b : byte) : bool :=
  match digit_of_byte b with
  | Some _ => true
  | None => false
  end.

Definition bytes_decimal (field : list byte) : Z :=
  fold_left (fun acc b => 10 * acc + (byte_value b - 48)) field 0.

(** The bytes an integer literal can be made of: digits, a sign, an
    underscore and whitespace. *)
Definition is_int_byte (b : byte) : bool :=
  is_digit_byte b || is_space_byte b || Byte.eqb b "+"%byte
  || Byte.eqb b "-"%byte || Byte.eqb b "_"%byte.

(** ** [str] methods used by [parse_value] *)

(** [c.isspace()] on code points below 256. *)
Definition is_space (c : ascii) : bool :=
  let n := code_point c in
  ((9 <=? n) && (n <=? 13)) || ((28 <=? n) && (n <=? 32))
  || (n =? 133) || (n =? 160).

Fixpoint lstrip (s : list ascii) : list ascii :=
  match s with
  | c :: s' => if is_space c then lstrip s' else s
  | [] => []
  end.

(** [s.strip()] *)
Definition strip (s : list ascii) : list ascii :=
  rev (lstrip (rev (lstrip s))).

(** [cur] holds the characters of the token being read, last first. *)
Fixpoint split_from (cur s : list ascii) : list (list ascii) :=
  match s with
  | [] => match cur with
          | [] => []
          | _ :: _ => [rev cur]
          end
  | c :: s' =>
      if is_space c then
        match cur with
        | [] => split_from [] s'
        | _ :: _ => rev cur :: split_from [] s'
        end
      else split_from (c :: cur) s'
  end.

(** [s.split()] *)
Definition split (s : list ascii) : list (list ascii) := split_from [] s.

(** ** [float(s)] for a [str] argument

    Underscores are checked and removed first, as CPython does; then
    whitespace is stripped and a sign, [inf], [infinity], [nan] or a
    decimal numeral with an optional exponent is read.  The value of a
    numeral is its exact decimal value rounded once to binary64. *)

Definition digit_of_char (c : ascii) : option Z :=
  let n := code_point c in
  if (48 <=? n) && (n <=? 57) then Some (n - 48) else None.

Definition is_digit (c : ascii) : bool :=
  match digit_of_char c with
  | Some _ => true
  | None => false
  end.

Definition is_underscore (c : ascii) : bool := Ascii.eqb c "_"%char.

(** [prev_digit] and [prev_us] say what the previous character was. *)
Fixpoint remove_underscores (prev_digit prev_us : bool) (s : list ascii)
  : option (list ascii) :=
  match s with
  | [] => if prev_us then None else Some []
  | c :: s' =>
      if is_underscore c then
        if prev_digit then remove_underscores false true s' else None
      else if prev_us && negb (is_digit c) then None
      else option_map (cons c) (remove_underscores (is_digit c) false s')
  end.

Fixpoint take_digits (s : list ascii) : list Z * list ascii :=
  match s with
  | c :: s' =>
      match digit_of_char c with
      | Some d => let '(ds, r) := take_digits s' in (d :: ds, r)
      | None => ([], s)
      end
  | [] => ([], [])
  end.

Definition decimal (ds : list Z) : Z :=
  fold_left (fun acc d => 10 * acc + d) ds 0.

Definition take_sign (s : list ascii) : bool * list ascii :=
  match s with
  | c :: s' =>
      if Ascii.eqb c "+"%char then (false, s')
      else if Ascii.eqb c "-"%char then (true, s')
      else (false, s)
  | [] => (false, [])
  end.

(** What follows the mantissa: nothing, or [e] or [E], an optional sign
    and at least one digit. *)
Definition read_exponent (s : list ascii) : option Z :=
  match s with
  | [] => Some 0
  | c :: s1 =>
      if Ascii.eqb c "e"%char || Ascii.eqb c "E"%char then
        let '(negative, s2) := take_sign s1 in
        match take_digits s2 with
        | (d :: ds, []) =>
            Some (if negative then - decimal (d :: ds) else decimal (d :: ds))
        | _ => None
        end
      else None
  end.

(** [m * 10 ^ e] for [0 <= m], rounded to the nearest binary64 value. *)
Definition round_decimal (m e : Z) : float :=
  if e <? 0 then int_truediv m (10 ^ (- e)) else float_of_int (m * 10 ^ e).

Definition lower (c : ascii) : ascii :=
  let n := code_point c in
  if (65 <=? n) && (n <=? 90) then ascii_of_N (Z.to_N (n + 32)) else c.

Definition read_magnitude (s : list ascii) : option float :=
  let word := map lower s in
  if bool_decide (word = str_of "inf") || bool_decide (word = str_of "infinity")
  then Some infinity
  else if bool_decide (word = str_of "nan") then Some nan
  else
    let '(int_digits, s1) := take_digits s in
    let '(frac_digits, s2) :=
      match s1 with
      | c :: s1' => if Ascii.eqb c "."%char then take_digits s1' else ([], s1)
      | [] => ([], [])
      end in
    match int_digits ++ frac_digits with
    | [] => None
    | digits =>
        match read_exponent s2 with
        | Some e =>
            Some (round_decimal (decimal digits)
                                (e - Z.of_nat (length frac_digits)))
        | None => None
        end
    end.

Definition float_of_str (s : list ascii) : result float :=
  match remove_underscores false false s with
  | None => Raise ValueError
  | Some s0 =>
      let '(negative, s1) := take_sign (strip s0) in
      match read_magnitude s1 with
      | Some x => Ok (if negative then - x else x)%float
      | None => Raise ValueError
      end
  end.

(** ** ValueParser ([parse_value], lines 37-66) *)

Definition units : list (list ascii) :=
  map str_of ["Sa/s"; "sa/s"; "pts"; "Pts"; "Hz"; "hz"; "V"; "v"; "s"; "S"]%string.

Definition si_prefixes : list (ascii * float) :=
  [("G"%char, 1e9%float); ("M"%char, 1e6%float); ("k"%char, 1e3%float);
   ("m"%char, 1e-3%float); ("u"%char, 1e-6%float); ("n"%char, 1e-9%float);
   ("p"%char, 1e-12%float)].

(** [response.split()[-1] if response.split() else response] *)
Definition last_token (response : list ascii) : list ascii :=
  match split response with
  | [] => response
  | t :: ts => List.last ts t
  end.

(** The [for unit in ...] loop: the first unit of the list that ends
    the token is cut off, and the loop stops there. *)
Fixpoint strip_unit_from (us : list (list ascii)) (value_str : list ascii)
  : list ascii :=
  match us with
  | [] => value_str
  | unit :: us' =>
      if endswith value_str unit
      then py_slice value_str 0 (- Z.of_nat (length unit))
      else strip_unit_from us' value_str
  end.

Definition strip_unit (value_str : list ascii) : list ascii :=
  strip_unit_from units value_str.

Fixpoint dict_get (table : list (ascii * float)) (c : ascii) : option float :=
  match table with
  | [] => None
  | (k, v) :: table' => if Ascii.eqb k c then Some v else dict_get table' c
  end.

(** The numeral and the multiplier left by the SI prefix test. *)
Definition split_si_prefix (value_str : list ascii) : list ascii * float :=
  match value_str with
  | [] => ([], 1%float)
  | c0 :: cs =>
      match dict_get si_prefixes (List.last cs c0) with
      | Some multiplier => (py_slice value_str 0 (-1), multiplier)
      | None => (value_str, 1%float)
      end
  end.

Definition parse_value (response : list ascii) : result float :=
  let response := strip response in
  let value_str := strip_unit (last_token response) in
  let '(value_str, multiplier) := split_si_prefix value_str in
  x ← float_of_str value_str;
  Ok (x * multiplier)%float.

(** ** WaveformDecoder ([capture_channel], lines 189-196) *)

Definition code_per_div : float := 25%float.

(** [code = b - 255 if b > 127 else b] *)
Definition signed_code (b : Z) : Z :=
  if 127 <? b then b - 255 else b.

(** [voltage = (code / code_per_div) * vdiv - ofst] *)
Definition sample_voltage (vdiv ofst : float) (b : Z) : float :=
  (float_of_int (signed_code b) / code_per_div * vdiv - ofst)%float.

(** The loop [for b in wave_bytes: ... voltages.append(voltage)],
    started from [voltages = []]. *)
Definition decode_waveform (vdiv ofst : float) (wave_bytes : list byte)
  : list float :=
  fold_left
    (fun voltages b => voltages ++ [sample_voltage vdiv ofst (byte_value b)])
    wave_bytes [].

(** ** The arithmetic of the time axis

    The time axis only converts, subtracts, multiplies and divides.
    It is written once over these operations, so that it can be run in
    binary64, as Python does, and read in exact rational arithmetic,
    where rounding plays no part. *)

Class Arith (F : Type) : Type := {
  of_int : Z -> F;           (* float(n) *)
  int_div : Z -> Z -> F;     (* n / m on two ints, m not zero *)
  sub : F -> F -> F;
  mul : F -> F -> F;
  div : F -> F -> F;
  is_zero : F -> bool
}.

#[global] Instance binary64 : Arith float := {
  of_int := float_of_int;
  int_div := int_truediv;
  sub := PrimFloat.sub;
  mul := PrimFloat.mul;
  div := PrimFloat.div;
  is_zero := fun x => (x =? 0)%float
}.

#[global] Instance exact : Arith Q := {
  of_int := inject_Z;
  int_div := fun a b => Qdiv (inject_Z a) (inject_Z b);
  sub := Qminus;
  mul := Qmult;
  div := Qdiv;
  is_zero := fun x => Qeq_bool x 0
}.

(** [x / y] for a [float] divisor: division by zero raises. *)
Definition truediv {F : Type} `{Arith F} (x y : F) : result F :=
  if is_zero y then Raise ZeroDivisionError else Ok (div x y).

(** [range(n)] *)
Definition range (n : Z) : list Z := map Z.of_nat (seq 0 (Z.to_nat n)).

(** ** TimeAxisBuilder ([main], lines 300-303) *)

(** [max(len(v) for v in channel_data.values())], for a dict that is
    not empty. *)
Definition max_len {F : Type} (channel_data : gmap Z (list F)) : Z :=
  map_fold (fun _ v acc => Z.max (Z.of_nat (length v)) acc) 0 channel_data.

(** [dt = 1.0 / sara] and
    [times = [(i - num_points / 2) * dt for i in range(num_points)]] *)
Definition time_axis {F : Type} `{Arith F} (num_points : Z) (sara : F)
  : result (list F) :=
  dt ← truediv (of_int 1) sara;
  Ok (map (fun i => mul (sub (of_int i) (int_div num_points 2)) dt)
          (range num_points)).

(** ** Decimator ([main], lines 305-313) *)

(** [wait] counts the samples still to pass over before the next one
    that is kept. *)
Fixpoint stride_from {A : Type} (skip wait : nat) (l : list A) : list A :=
  match l with
  | [] => []
  | x :: l' =>
      match wait with
      | O => x :: stride_from skip (skip - 1) l'
      | S w => stride_from skip w l'
      end
  end.

(** [l[::skip]] for a step [skip >= 1], the only steps [main] uses. *)
Definition py_stride {A : Type} (skip : Z) (l : list A) : list A :=
  stride_from (Z.to_nat skip) 0 l.

(** The stride of lines 307-309. *)
Definition stride_of (num_points maxpoints : Z) : Z :=
  let skip := num_points / maxpoints in
  if skip <? 1 then 1 else skip.

(** [args.maxpoints and num_points > args.maxpoints]: [None] and [0]
    are false. *)
Definition must_decimate (maxpoints : option Z) (num_points : Z) : bool :=
  match maxpoints with
  | None => false
  | Some m => negb (m =? 0) && (m <? num_points)
  end.

Definition decimate {F : Type} (maxpoints : option Z) (num_points : Z)
    (times : list F) (channel_data : gmap Z (list F))
  : list F * gmap Z (list F) :=
  match maxpoints with
  | Some m =>
      if must_decimate maxpoints num_points then
        let skip := stride_of num_points m in
        (py_stride skip times, py_stride skip <$> channel_data)
      else (times, channel_data)
  | None => (times, channel_data)
  end.

(** Lines 296-313 of [main]: from the captured channels to the data
    handed to [save_csv]. *)
Definition capture_result {F : Type} `{Arith F} (maxpoints : option Z)
    (sara : F) (channel_data : gmap Z (list F))
  : result (list F * gmap Z (list F)) :=
  if bool_decide (channel_data = ∅) then Raise SystemExit
  else
    let num_points := max_len channel_data in
    times ← time_axis num_points sara;
    Ok (decimate maxpoints num_points times channel_data).

(** ** More [str] operations *)

(** The character [c] closes a numeral: a digit or an SI prefix. *)
Definition closes_numeral (c : ascii) : bool :=
  is_digit c
  || match dict_get si_prefixes c with
     | Some _ => true
     | None => false
     end.

(** [c.upper()] on the ASCII letters.  No other code point below 256
    becomes, in upper case, one of the ASCII letters the script looks
    for, so the tests [word in s.upper()] do not need more. *)
Definition upper (c : ascii) : ascii :=
  let n := code_point c in
  if (97 <=? n) && (n <=? 122) then ascii_of_N (Z.to_N (n - 32)) else c.

(** [sub in s] *)
Fixpoint contains (sub s : list ascii) : bool :=
  str_starts_with sub s
  || match s with
     | [] => false
     | _ :: s' => contains sub s'
     end.

(** [str(n)] for a Python [int]. *)
Definition str_of_int (n : Z) : list ascii :=
  list_ascii_of_string (NilZero.string_of_int (Z.to_int n)).

(** ** [get_active_channels] (lines 134-144)

    [tra ch] is the outcome of [scope.query(f'C{ch}:TRA?')]: the
    response, or [None] when the query raises. *)

Definition shows_on (resp : list ascii) : bool :=
  contains (str_of "ON") (map upper (strip resp)).

Definition get_active_channels (tra : Z -> option (list ascii)) : list Z :=
  fold_left
    (fun active ch =>
       match tra ch with
       | Some resp => if shows_on resp then active ++ [ch] else active
       | None => active
       end)
    [1; 2; 3; 4] [].

(** Lines 269-272 of [main]: the channels when [--channels] is not
    given. *)
Definition default_channels (tra : Z -> option (list ascii)) : list Z :=
  match get_active_channels tra with
  | [] => [1]
  | ch :: chs => ch :: chs
  end.

(** ** [connect_scope] without an address (lines 85-107)

    Each resource comes with the outcome that opening it and asking
    [*IDN?] has: the identification, or [None] when that raises.  The
    result is the resource whose session is returned, with the list of
    the resources that were tried, in order. *)

Definition is_usb (res : list ascii) : bool :=
  contains (str_of "USB") (map upper res).

Definition is_siglent (idn : list ascii) : bool :=
  contains (str_of "siglent") (map lower (strip idn)).

Fixpoint scan_resources (resources : list (list ascii * option (list ascii)))
    (tried : list (list ascii))
  : result (list ascii) * list (list ascii) :=
  match resources with
  | [] => (Raise SystemExit, tried)
  | (res, outcome) :: rest =>
      if is_usb res then
        match outcome with
        | Some idn =>
            if is_siglent idn then (Ok res, tried ++ [res])
            else scan_resources rest (tried ++ [res])
        | None => scan_resources rest (tried ++ [res])
        end
      else scan_resources rest tried
  end.

Definition connect_scope (resources : list (list ascii * option (list ascii)))
  : result (list ascii) * list (list ascii) :=
  match resources with
  | [] => (Raise SystemExit, [])
  | _ :: _ => scan_resources resources []
  end.

(** ** [--channels] (lines 266-272 of [main]) *)

(** [s.split(sep)] for a one-character separator; [cur] holds the
    characters of the piece being read, last first. *)
Fixpoint split_on (sep : ascii) (cur s : list ascii) : list (list ascii) :=
  match s with
  | [] => [rev cur]
  | c :: s' =>
      if Ascii.eqb c sep then rev cur :: split_on sep [] s'
      else split_on sep (c :: cur) s'
  end.

(** What [int] reads of a [str]: the ASCII characters as they are, the
    other whitespace as a blank, anything else as [?]. *)
Definition int_char (c : ascii) : byte :=
  let n := code_point c in
  if n <? 128 then byte_of_ascii c
  else if (n =? 133) || (n =? 160) then " "%byte
  else "?"%byte.

(** The default of [sys.get_int_max_str_digits()]: [int] refuses a
    decimal string with more digits. *)
Definition max_str_digits : Z := 4300.

(** [int(s)] for a [str] argument: the literal is read as [int] reads
    bytes, and raises [ValueError] too when it has more digits than
    the limit. *)
Definition int_of_str (s : list ascii) : result Z :=
  let bs := map int_char s in
  n ← int_of_bytes bs;
  if max_str_digits <? Z.of_nat (length (List.filter is_digit_byte bs))
  then Raise ValueError
  else Ok n.

(** [[int(c.strip()) for c in pieces]]: the first failure is raised. *)
Fixpoint ints_of (pieces : list (list ascii)) : result (list Z) :=
  match pieces with
  | [] => Ok []
  | c :: rest =>
      n ← int_of_str (strip c);
      ns ← ints_of rest;
      Ok (n :: ns)
  end.

Definition parse_channels (arg : list ascii) : result (list Z) :=
  ints_of (split_on ","%char [] arg).

(** [args.channels] is [None] or a string; the empty string counts as
    not given. *)
Definition select_channels (arg : option (list ascii))
    (tra : Z -> option (list ascii)) : result (list Z) :=
  match arg with
  | Some (c :: s) => parse_channels (c :: s)
  | Some [] => Ok (default_channels tra)
  | None => Ok (default_channels tra)
  end.

(** Pieces written one after the other with commas between them, and
    the decimal value of a piece made of digits. *)
Definition join_commas (pieces : list (list ascii)) : list ascii :=
  match pieces with
  | [] => []
  | p :: ps => p ++ flat_map (fun q => ","%char :: q) ps
  end.

Definition str_decimal (s : list ascii) : Z :=
  fold_left (fun acc c => 10 * acc + (code_point c - 48)) s 0.

(** A resource that [connect_scope] accepts: a USB resource that
    answers with an identification naming Siglent. *)
Definition is_candidate (r : list ascii * option (list ascii)) : bool :=
  is_usb (fst r)
  && match snd r with
     | Some idn => is_siglent idn
     | None => false
     end.

(** ** [capture_channel] as a whole (lines 147-196)

    The two query responses and the raw block are the inputs; the
    [info] dict is a record. *)

Record channel_info : Type := {
  info_vdiv : float;
  info_ofst : float;
  info_num_points : Z
}.

Definition capture_channel (vdiv_resp ofst_resp : list ascii)
    (raw : list byte) : result (list float * channel_info) :=
  vdiv ← parse_value vdiv_resp;
  ofst ← parse_value ofst_resp;
  wave_bytes ← extract_block raw;
  let voltages := decode_waveform vdiv ofst wave_bytes in
  Ok (voltages,
      {| info_vdiv := vdiv; info_ofst := ofst;
         info_num_points := Z.of_nat (length voltages) |}).

(** ** The capture loop of [main] (lines 286-298)

    [outcomes] lists, in order, each channel with the outcome of its
    [capture_channel] call.  [except Exception] lets [SystemExit]
    through. *)

Fixpoint capture_loop (outcomes : list (Z * result (list float)))
    (channel_data : gmap Z (list float)) : result (gmap Z (list float)) :=
  match outcomes with
  | [] => Ok channel_data
  | (ch, Ok voltages) :: rest =>
      capture_loop rest (<[ch := voltages]> channel_data)
  | (ch, Raise SystemExit) :: _ => Raise SystemExit
  | (ch, Raise _) :: rest => capture_loop rest channel_data
  end.

(** Lines 281-313 of [main]: from the responses of the instrument to
    the data handed to [save_csv]. *)
Definition main_data (maxpoints : option Z) (tdiv_resp sara_resp : list ascii)
    (captures : list (Z * (list ascii * list ascii * list byte)))
  : result (list float * gmap Z (list float)) :=
  tdiv ← parse_value tdiv_resp;
  sara ← parse_value sara_resp;
  channel_data ←
    capture_loop
      (map (fun c =>
              (fst c,
               r ← capture_channel (fst (fst (snd c))) (snd (fst (snd c)))
                                   (snd (snd c));
               Ok (fst r)))
           captures)
      ∅;
  capture_result maxpoints sara channel_data.

(** ** [save_csv] (lines 199-221): the rows given to the writer

    The two float formats, [.10e] for times and [.6e] for voltages, are
    parameters. *)

Section SaveCsv.

Variables fmt_time fmt_volt : float -> list ascii.

(** [sorted(channel_data.keys())] *)
Definition sorted_channels (channel_data : gmap Z (list float)) : list Z :=
  merge_sort Z.le (elements (dom channel_data)).

Definition csv_header (channels : list Z) : list (list ascii) :=
  str_of "Time (s)"
  :: map (fun ch => str_of "CH" ++ str_of_int ch ++ str_of " (V)") channels.

(** The cell of channel [ch] in data row [i].  The channels are keys of
    the dict, so its lookup does not fail. *)
Definition csv_cell (channel_data : gmap Z (list float)) (i : nat) (ch : Z)
  : list ascii :=
  match channel_data !! ch with
  | Some volts =>
      match volts !! i with
      | Some v => fmt_volt v
      | None => []
      end
  | None => []
  end.

Definition csv_rows (times : list float)
    (channel_data : gmap Z (list float)) : list (list (list ascii)) :=
  let channels := sorted_channels channel_data in
  csv_header channels
  :: imap (fun i t => fmt_time t :: map (csv_cell channel_data i) channels)
          times.

End SaveCsv.

(** * Proofs *)

(** Case analysis on every integer comparison left in the goal. *)
Ltac case_ltb :=
  repeat match goal with
         | |- context [?a <? ?b] => destruct (Z.ltb_spec a b)
         end.

Module Decoder.

Lemma byte_value_range (b : byte) : 0 <= byte_value b <= 255.
Proof.
  unfold byte_value. pose proof (Byte.to_N_bounded b) as H. lia.
Qed.

Lemma fold_left_snoc {A B : Type} (f : A -> B) (l : list A) (acc : list B) :
  fold_left (fun out x => out ++ [f x]) l acc = acc ++ map f l.
Proof.
  revert acc. induction l as [| x l IH]; intros acc; simpl.
  - now rewrite app_nil_r.
  - rewrite IH, <- app_assoc. reflexivity.
Qed.

Lemma decode_waveform_map (vdiv ofst : float) (wave_bytes : list byte) :
  decode_waveform vdiv ofst wave_bytes
  = map (fun b => sample_voltage vdiv ofst (byte_value b)) wave_bytes.
Proof.
  unfold decode_waveform.
  exact (fold_left_snoc
           (fun b => sample_voltage vdiv ofst (byte_value b)) wave_bytes []).
Qed.

Lemma unit_scale_voltage (b : byte) :
  sample_voltage 1 0 (byte_value b)
  = (float_of_int (signed_code (byte_value b)) / 25)%float.
Proof. destruct b; vm_compute; reflexivity. Qed.

(** C1: every byte b is mapped to the signed code b when b <= 127 and to
    b - 255 when b > 127; the table 0->0, 1->1, 127->127, 128->-127,
    254->-1, 255->0 holds. *)
Theorem signed_code_table :
  (forall b : byte,
      signed_code (byte_value b)
      = if byte_value b <=? 127 then byte_value b else byte_value b - 255)
  /\ (forall b : byte, -127 <= signed_code (byte_value b) <= 127)
  /\ signed_code 0 = 0
  /\ signed_code 1 = 1
  /\ signed_code 127 = 127
  /\ signed_code 128 = -127
  /\ signed_code 254 = -1
  /\ signed_code 255 = 0.
Proof.
  split; [| split; [| repeat split; reflexivity]].
  - intros b. unfold signed_code.
    destruct (Z.ltb_spec 127 (byte_value b)),
             (Z.leb_spec (byte_value b) 127); lia.
  - intros b. pose proof (byte_value_range b) as Hb. unfold signed_code.
    destruct (Z.ltb_spec 127 (byte_value b)); lia.
Qed.

Lemma signed_code_explicit (n : Z) :
  signed_code n = if n <=? 127 then n else n - 255.
Proof.
  unfold signed_code.
  destruct (Z.ltb_spec 127 n), (Z.leb_spec n 127); lia.
Qed.

(** C2: for every byte sequence, scale and offset the decoder yields one
    voltage per input byte, in input order, each equal to
    (signed_code / 25.0) * scale - offset, where the signed code of a
    byte b is b up to 127 and b - 255 above; the output is as long as
    the input, and for scale 1.0 and offset 0.0 each voltage is the
    signed code divided by 25.0.  The bytes
    0, 1, 127, 128, 200, 254, 255, 64 give, at scale 1.0 and offset
    0.0, the voltages 0, 0.04, 5.08, -5.08, -2.2, -0.04, 0, 2.56, and
    byte 200 at scale 2.0 and offset 0.5 gives -4.9. *)
Theorem decode_waveform_voltages :
  forall (vdiv ofst : float) (wave_bytes : list byte),
    decode_waveform vdiv ofst wave_bytes
    = map (fun b =>
             (float_of_int (if byte_value b <=? 127
                            then byte_value b
                            else byte_value b - 255)%Z
              / 25 * vdiv - ofst)%float)
          wave_bytes
    /\ length (decode_waveform vdiv ofst wave_bytes) = length wave_bytes
    /\ decode_waveform 1 0 wave_bytes
       = map (fun b =>
                (float_of_int (if byte_value b <=? 127
                               then byte_value b
                               else byte_value b - 255)%Z
                 / 25)%float)
             wave_bytes
    /\ decode_waveform 1 0
         ["000"; "001"; "127"; "128"; "200"; "254"; "255"; "064"]%byte
       = [0; 0.04; 5.08; -5.08; -2.2; -0.04; 0; 2.56]%float
    /\ decode_waveform 2 0.5 ["200"]%byte = [-4.9]%float.
Proof.
  intros vdiv ofst wave_bytes. rewrite !decode_waveform_map.
  split; [| split; [apply length_map | split; [| split]]].
  - apply map_ext. intros b. unfold sample_voltage.
    now rewrite signed_code_explicit.
  - apply map_ext. intros b. rewrite unit_scale_voltage.
    now rewrite signed_code_explicit.
  - vm_compute. reflexivity.
  - vm_compute. reflexivity.
Qed.

End Decoder.

Module Extractor.

(** *** Slices *)

Lemma slice_index_nonneg (len i : Z) :
  0 <= len -> 0 <= i -> slice_index len i = Z.min i len.
Proof.
  intros Hlen Hi. unfold slice_index. cbv zeta.
  destruct (Z.ltb_spec i 0); case_ltb; lia.
Qed.



Lemma py_slice_nonneg {A : Type} (l : list A) (a b : Z) :
  0 <= a -> a <= b ->
  py_slice l a b = firstn (Z.to_nat (b - a)) (skipn (Z.to_nat a) l).
Proof.
  intros Ha Hab. unfold py_slice.
  set (len := Z.of_nat (length l)).
  assert (Hlen : 0 <= len) by (subst len; lia).
  rewrite (slice_index_nonneg len a Hlen Ha).
  rewrite (slice_index_nonneg len b Hlen) by lia.
  destruct (Z.le_gt_cases a len) as [Hle | Hgt].
  - rewrite (Z.min_l a len) by lia.
    destruct (Z.le_gt_cases b len) as [Hb | Hb].
    + rewrite Z.min_l by lia. reflexivity.
    + rewrite Z.min_r by lia.
      rewrite !firstn_all2; [reflexivity | |];
        rewrite length_skipn; subst len; lia.
  - rewrite !skipn_all2 by (subst len; lia).
    now rewrite !firstn_nil.
Qed.

Lemma py_slice_length {A : Type} (l : list A) (a b : Z) :
  0 <= a -> a <= b ->
  Z.of_nat (length (py_slice l a b))
  = Z.min (b - a) (Z.max 0 (Z.of_nat (length l) - a)).
Proof.
  intros Ha Hab. rewrite py_slice_nonneg by assumption.
  rewrite length_firstn, length_skipn. lia.
Qed.

(** *** Finding the marker *)

Lemma find_from_first (sub : list byte) (m : nat) :
  forall (l : list byte) (i : Z),
    starts_with sub (skipn m l) = true ->
    (forall j : nat, (j < m)%nat -> starts_with sub (skipn j l) = false) ->
    find_from sub l i = i + Z.of_nat m.
Proof.
  induction m as [| m IH]; intros l i Hat Hbefore.
  - rewrite skipn_O in Hat.
    destruct l; simpl; rewrite Hat; lia.
  - assert (H0 : starts_with sub l = false)
      by (apply (Hbefore 0%nat); lia).
    destruct l as [| x l].
    + simpl in Hat. congruence.
    + simpl. rewrite H0. simpl in Hat.
      rewrite (IH l (i + 1) Hat); [lia |].
      intros j Hj. apply (Hbefore (S j)). lia.
Qed.

Lemma bytes_find_first (raw : list byte) (m : nat) :
  marker_at raw m = true ->
  (forall j : nat, (j < m)%nat -> marker_at raw j = false) ->
  bytes_find raw block_marker = Z.of_nat m.
Proof.
  intros Hat Hbefore. unfold bytes_find.
  now rewrite (find_from_first block_marker m raw 0 Hat Hbefore).
Qed.

(** Once the marker is found at [m], the rest of the extraction only
    reads the buffer from [m + 2] on. *)
Lemma extract_block_at (raw : list byte) (m : nat) :
  bytes_find raw block_marker = Z.of_nat m ->
  length_field raw (Z.of_nat m) = firstn 9 (skipn (m + 2) raw)
  /\ extract_block raw
     = (data_len ← int_of_bytes (firstn 9 (skipn (m + 2) raw));
        Ok (py_slice raw (Z.of_nat m + 11) (Z.of_nat m + 11 + data_len))).
Proof.
  intros Hfind.
  assert (Hfield : length_field raw (Z.of_nat m)
                   = firstn 9 (skipn (m + 2) raw)).
  { unfold length_field. rewrite py_slice_nonneg by lia.
    f_equal; [lia | f_equal; lia]. }
  split; [exact Hfield |].
  unfold extract_block. rewrite Hfind.
  destruct (Z.eqb_spec (Z.of_nat m) (-1)) as [Heq | _]; [lia |].
  now rewrite Hfield.
Qed.

(** *** Reading the length *)

Lemma digit_byte_facts (b : byte) :
  is_digit_byte b = true ->
  digit_of_byte b = Some (byte_value b - 48)
  /\ is_space_byte b = false
  /\ Byte.eqb b "+"%byte = false
  /\ Byte.eqb b "-"%byte = false
  /\ Byte.eqb b "_"%byte = false.
Proof.
  destruct b; intros H; try (vm_compute in H; discriminate H);
    vm_compute; auto.
Qed.

Lemma scan_all_digits (r : list byte) :
  forall acc : Z,
    forallb is_digit_byte r = true ->
    scan_digits acc r
    = Some (fold_left (fun a b => 10 * a + (byte_value b - 48)) r acc, []).
Proof.
  induction r as [| b r IH]; intros acc Hall; [reflexivity |].
  simpl in Hall. apply andb_true_iff in Hall as [Hb Hr].
  destruct (digit_byte_facts b Hb) as (Hd & _).
  simpl. rewrite Hd. apply IH, Hr.
Qed.

(** A field made of digits only is read as its decimal value. *)
Lemma int_of_digits (field : list byte) :
  field <> [] ->
  forallb is_digit_byte field = true ->
  int_of_bytes field = Ok (bytes_decimal field).
Proof.
  destruct field as [| b r]; [congruence |]. intros _ Hall.
  simpl in Hall. apply andb_true_iff in Hall as [Hb Hr].
  destruct (digit_byte_facts b Hb) as (Hd & Hsp & Hplus & Hminus & _).
  unfold int_of_bytes. simpl skip_spaces. rewrite Hsp, Hplus, Hminus, Hd.
  rewrite (scan_all_digits r _ Hr). simpl skip_spaces.
  unfold bytes_decimal. simpl fold_left. reflexivity.
Qed.

Lemma skip_spaces_int_bytes (l : list byte) :
  forallb is_int_byte (skip_spaces l) = true -> forallb is_int_byte l = true.
Proof.
  induction l as [| b l IH]; [reflexivity |]. simpl.
  destruct (is_space_byte b) eqn:Hsp; [| trivial].
  intros H. rewrite (IH H), andb_true_r.
  unfold is_int_byte. rewrite Hsp. now rewrite orb_true_r.
Qed.

Lemma only_spaces_int_bytes (l : list byte) :
  skip_spaces l = [] -> forallb is_int_byte l = true.
Proof.
  intros H. apply skip_spaces_int_bytes. now rewrite H.
Qed.

Lemma digit_is_int_byte (b : byte) (d : Z) :
  digit_of_byte b = Some d -> is_int_byte b = true.
Proof.
  intros H. unfold is_int_byte, is_digit_byte. now rewrite H.
Qed.

Lemma scan_digits_int_bytes (k : nat) :
  forall (l : list byte) (acc n : Z) (rest : list byte),
    (length l <= k)%nat ->
    scan_digits acc l = Some (n, rest) ->
    forallb is_int_byte rest = true ->
    forallb is_int_byte l = true.
Proof.
  induction k as [| k IH]; intros l acc n rest Hlen Hscan Hrest.
  - destruct l; [reflexivity | simpl in Hlen; lia].
  - destruct l as [| b l]; [reflexivity |].
    simpl in Hscan, Hlen.
    destruct (digit_of_byte b) as [d |] eqn:Hd.
    + simpl. rewrite (digit_is_int_byte b d Hd). simpl.
      eapply IH; [| exact Hscan | exact Hrest]. lia.
    + destruct (Byte.eqb b "_"%byte) eqn:Hus.
      * destruct l as [| b' l]; [discriminate |].
        destruct (digit_of_byte b') as [d' |] eqn:Hd'; [| discriminate].
        simpl. rewrite (digit_is_int_byte b' d' Hd').
        assert (Hb : is_int_byte b = true)
          by (unfold is_int_byte; rewrite Hus; now rewrite orb_true_r).
        rewrite Hb. simpl.
        eapply IH; [| exact Hscan | exact Hrest]. simpl in Hlen. lia.
      * injection Hscan as _ <-. exact Hrest.
Qed.

(** Whatever [int] accepts is made of digits, signs, underscores and
    whitespace only. *)
Lemma int_of_bytes_int_bytes (s : list byte) (n : Z) :
  int_of_bytes s = Ok n -> forallb is_int_byte s = true.
Proof.
  unfold int_of_bytes. intros H. apply skip_spaces_int_bytes.
  destruct (skip_spaces s) as [| b r]; [discriminate |].
  assert (Htail : forall (c : byte) (t : list byte) (neg : bool),
             match digit_of_byte c with
             | Some d =>
                 match scan_digits d t with
                 | Some (n0, rest) =>
                     match skip_spaces rest with
                     | [] => Ok (if neg then - n0 else n0)
                     | _ :: _ => Raise ValueError
                     end
                 | None => Raise ValueError
                 end
             | None => Raise ValueError
             end = Ok n ->
             forallb is_int_byte (c :: t) = true).
  { intros c t neg Hc.
    destruct (digit_of_byte c) as [d |] eqn:Hd; [| discriminate].
    destruct (scan_digits d t) as [[n0 rest] |] eqn:Hscan; [| discriminate].
    destruct (skip_spaces rest) eqn:Hsp; [| discriminate].
    simpl. rewrite (digit_is_int_byte c d Hd). simpl.
    apply (scan_digits_int_bytes (length t) t d n0 rest);
      [lia | exact Hscan | now apply only_spaces_int_bytes]. }
  destruct (Byte.eqb b "+"%byte) eqn:Hplus.
  - destruct r as [| c t]; [discriminate |].
    change (forallb is_int_byte (b :: c :: t))
      with (is_int_byte b && forallb is_int_byte (c :: t)).
    rewrite (Htail c t false H), andb_true_r.
    unfold is_int_byte. rewrite Hplus. now rewrite !orb_true_r.
  - destruct (Byte.eqb b "-"%byte) eqn:Hminus.
    + destruct r as [| c t]; [discriminate |].
      change (forallb is_int_byte (b :: c :: t))
        with (is_int_byte b && forallb is_int_byte (c :: t)).
      rewrite (Htail c t true H), andb_true_r.
      unfold is_int_byte. rewrite Hminus. now rewrite !orb_true_r.
    + exact (Htail b r false H).
Qed.

Lemma digit_byte_range (b : byte) :
  is_digit_byte b = true -> 48 <= byte_value b <= 57.
Proof.
  unfold is_digit_byte, digit_of_byte. cbv zeta.
  destruct (Z.leb_spec 48 (byte_value b)), (Z.leb_spec (byte_value b) 57);
    simpl; intros Hd; (discriminate Hd || lia).
Qed.

Lemma fold_decimal_nonneg (field : list byte) :
  forall acc : Z,
    0 <= acc ->
    forallb is_digit_byte field = true ->
    0 <= fold_left (fun a b => 10 * a + (byte_value b - 48)) field acc.
Proof.
  induction field as [| b r IH]; intros acc Hacc Hall; [exact Hacc |].
  simpl in Hall. apply andb_true_iff in Hall as [Hb Hr].
  pose proof (digit_byte_range b Hb). simpl. apply IH; [lia | exact Hr].
Qed.

Lemma bytes_decimal_nonneg (field : list byte) :
  forallb is_digit_byte field = true -> 0 <= bytes_decimal field.
Proof. apply fold_decimal_nonneg. lia. Qed.

(** *** The claims on block extraction *)

Example int_of_bytes_literals :
  int_of_bytes (bytes_of "000000005") = Ok 5
  /\ int_of_bytes (bytes_of " -1_2 ") = Ok (-12)
  /\ int_of_bytes (bytes_of "1__2") = Raise ValueError
  /\ int_of_bytes (bytes_of "12_") = Raise ValueError
  /\ int_of_bytes (bytes_of "+ 12") = Raise ValueError
  /\ int_of_bytes (bytes_of "0000000x5") = Raise ValueError
  /\ int_of_bytes (bytes_of "") = Raise ValueError.
Proof. repeat split; vm_compute; reflexivity. Qed.

Example extract_hello :
  extract_block (bytes_of "junk#9000000005HELLOtrailer")
  = Ok (bytes_of "HELLO").
Proof. vm_compute. reflexivity. Qed.

(** C3, as stated, fails: a block that declares 5 payload bytes and
    holds only 2 is accepted, and the 2 bytes are returned. *)
Lemma truncated_block_accepted :
  bytes_find (bytes_of "#9000000005HI") block_marker = 0
  /\ length_field (bytes_of "#9000000005HI") 0 = bytes_of "000000005"
  /\ int_of_bytes (bytes_of "000000005") = Ok 5
  /\ extract_block (bytes_of "#9000000005HI") = Ok (bytes_of "HI").
Proof. repeat split; vm_compute; reflexivity. Qed.

(** C3, amended: for every raw buffer where the marker is found and is
    followed by a 9-digit length field, extraction succeeds and returns
    the first [declared] bytes after the field, or all the bytes there
    are when fewer follow: the payload has min(declared, available)
    bytes, exactly the declared length when the buffer holds that many
    and fewer, without any error, when it does not. *)
Theorem payload_length (raw : list byte) (m : nat) :
  bytes_find raw block_marker = Z.of_nat m ->
  length (length_field raw (Z.of_nat m)) = 9%nat ->
  forallb is_digit_byte (length_field raw (Z.of_nat m)) = true ->
  let declared := bytes_decimal (length_field raw (Z.of_nat m)) in
  let available := Z.of_nat (length raw) - (Z.of_nat m + 11) in
  exists payload : list byte,
    extract_block raw = Ok payload
    /\ payload = firstn (Z.to_nat declared) (skipn (m + 11) raw)
    /\ Z.of_nat (length payload) = Z.min declared available
    /\ (declared <= available -> Z.of_nat (length payload) = declared)
    /\ (available < declared -> Z.of_nat (length payload) = available).
Proof.
  intros Hfind Hlen Hdigits declared available.
  destruct (extract_block_at raw m Hfind) as [Hfield Hextract].
  assert (Hdecl : 0 <= declared) by now apply bytes_decimal_nonneg.
  assert (Havail : 0 <= available).
  { rewrite Hfield, length_firstn, length_skipn in Hlen.
    subst available. lia. }
  assert (Hint : int_of_bytes (length_field raw (Z.of_nat m)) = Ok declared).
  { apply int_of_digits; [| exact Hdigits].
    intros Hnil. rewrite Hnil in Hlen. discriminate Hlen. }
  rewrite Hfield in Hint.
  exists (firstn (Z.to_nat declared) (skipn (m + 11) raw)).
  assert (Hsize : Z.of_nat (length (firstn (Z.to_nat declared)
                                           (skipn (m + 11) raw)))
                  = Z.min declared available).
  { rewrite length_firstn, length_skipn. subst available. lia. }
  split; [| split; [reflexivity | split; [exact Hsize | split; lia]]].
  rewrite Hextract, Hint. simpl. rewrite py_slice_nonneg by lia.
  do 2 f_equal; [f_equal; lia | f_equal; lia].
Qed.

Lemma payload_length_witness :
  bytes_find (bytes_of "junk#9000000005HELLOtrailer") block_marker = 4
  /\ exists payload : list byte,
      extract_block (bytes_of "junk#9000000005HELLOtrailer") = Ok payload
      /\ payload = bytes_of "HELLO"
      /\ Z.of_nat (length payload) = 5.
Proof.
  split; [reflexivity |].
  destruct (payload_length (bytes_of "junk#9000000005HELLOtrailer") 4)
    as (payload & Hx & Hp & Hn & _);
    [reflexivity | reflexivity | reflexivity |].
  exists payload. split; [exact Hx |]. split; [exact Hp | exact Hn].
Defined.

(** C8, as stated, fails: the 9 bytes after the marker are [+00000005],
    which are not all digits, and the block is extracted all the same. *)
Lemma signed_length_accepted :
  bytes_find (bytes_of "#9+00000005HELLO") block_marker = 0
  /\ length_field (bytes_of "#9+00000005HELLO") 0 = bytes_of "+00000005"
  /\ forallb is_digit_byte (bytes_of "+00000005") = false
  /\ extract_block (bytes_of "#9+00000005HELLO") = Ok (bytes_of "HELLO").
Proof. repeat split; vm_compute; reflexivity. Qed.

(** C8, amended: for every raw buffer where the marker is found,
    extraction reads the bytes that follow the marker, 9 of them or
    fewer when the buffer ends before, as the length field and hands
    them to [int]; 9 ASCII digits are read as their decimal value, and
    extraction fails with an error whenever the field is empty or holds
    a byte that is not a digit, a sign, an underscore or ASCII
    whitespace. *)
Theorem length_field_reading (raw : list byte) (m : nat) :
  bytes_find raw block_marker = Z.of_nat m ->
  let field := firstn 9 (skipn (m + 2) raw) in
  length_field raw (Z.of_nat m) = field
  /\ extract_block raw
     = (data_len ← int_of_bytes field;
        Ok (py_slice raw (Z.of_nat m + 11) (Z.of_nat m + 11 + data_len)))
  /\ (length field = 9%nat ->
      forallb is_digit_byte field = true ->
      int_of_bytes field = Ok (bytes_decimal field))
  /\ (forallb is_int_byte field = false ->
      extract_block raw = Raise ValueError)
  /\ (field = [] -> extract_block raw = Raise ValueError).
Proof.
  intros Hfind field.
  destruct (extract_block_at raw m Hfind) as [Hfield Hextract].
  fold field in Hfield, Hextract.
  split; [exact Hfield |]. split; [exact Hextract |].
  split; [| split].
  - intros Hlen Hdigits. apply int_of_digits; [| exact Hdigits].
    intros Hnil. rewrite Hnil in Hlen. discriminate Hlen.
  - intros Hbad. rewrite Hextract.
    destruct (int_of_bytes field) as [n | e] eqn:Hint.
    + apply int_of_bytes_int_bytes in Hint. congruence.
    + destruct e; try reflexivity;
        (destruct field as [| b r]; [discriminate Hbad |]);
        unfold int_of_bytes in Hint;
        repeat match type of Hint with
               | context [match ?x with _ => _ end] => destruct x
               end; discriminate Hint.
  - intros Hnil. rewrite Hextract, Hnil. reflexivity.
Qed.

Lemma length_field_reading_witness :
  bytes_find (bytes_of "junk#9000000005HELLOtrailer") block_marker = 4
  /\ length_field (bytes_of "junk#9000000005HELLOtrailer") 4
     = bytes_of "000000005"
  /\ int_of_bytes (bytes_of "000000005") = Ok 5.
Proof.
  split; [reflexivity |].
  destruct (length_field_reading (bytes_of "junk#9000000005HELLOtrailer") 4)
    as (Hfield & _ & Hdigits & _); [reflexivity |].
  split; [exact Hfield |].
  exact (Hdigits eq_refl eq_refl).
Defined.




End Extractor.

Module Parser.

Lemma str_starts_with_app (sub l : list ascii) :
  str_starts_with sub l = true <-> exists r, l = sub ++ r.
Proof.
  revert l. induction sub as [| x sub IH]; intros l; simpl.
  - split; [intros _; now exists l | reflexivity].
  - destruct l as [| y l].
    + split; [discriminate | intros [r Hr]; discriminate Hr].
    + rewrite andb_true_iff, Ascii.eqb_eq, IH. split.
      * intros [-> [r ->]]. now exists r.
      * intros [r Hr]. injection Hr as -> ->. split; [reflexivity | now exists r].
Qed.

Lemma endswith_app (s suffix : list ascii) :
  endswith s suffix = true <-> exists pre, s = pre ++ suffix.
Proof.
  unfold endswith. rewrite str_starts_with_app. split.
  - intros [r Hr]. exists (rev r).
    rewrite <- (rev_involutive s), Hr, rev_app_distr.
    now rewrite rev_involutive.
  - intros [pre ->]. exists (rev pre). apply rev_app_distr.
Qed.

(** [s[:-k]] removes the last [k] characters. *)
Lemma py_slice_drop_end {A : Type} (pre suf : list A) :
  suf <> [] ->
  py_slice (pre ++ suf) 0 (- Z.of_nat (length suf)) = pre.
Proof.
  intros Hsuf. unfold py_slice.
  assert (Hpos : (0 < length suf)%nat)
    by (destruct suf; [congruence | simpl; lia]).
  rewrite length_app.
  replace (slice_index (Z.of_nat (length pre + length suf)) 0) with 0
    by (unfold slice_index; simpl;
        destruct (Z.ltb_spec (Z.of_nat (length pre + length suf)) 0); lia).
  replace (slice_index (Z.of_nat (length pre + length suf))
                       (- Z.of_nat (length suf)))
    with (Z.of_nat (length pre)).
  - rewrite Z.sub_0_r, Nat2Z.id. change (Z.to_nat 0) with 0%nat.
    rewrite skipn_O, firstn_app, Nat.sub_diag, firstn_all. simpl.
    apply app_nil_r.
  - unfold slice_index. cbv zeta.
    destruct (Z.ltb_spec (- Z.of_nat (length suf)) 0); [| lia].
    case_ltb; lia.
Qed.

(** The loop over a list of units in which no unit is longer than an
    earlier one cuts off the longest unit that ends the token. *)
Lemma strip_unit_from_longest (us : list (list ascii)) :
  StronglySorted (fun a b : list ascii => (length b <= length a)%nat) us ->
  Forall (fun u => u <> []) us ->
  forall token u : list ascii,
    In u us -> endswith token u = true ->
    exists unit : list ascii,
      In unit us
      /\ token = strip_unit_from us token ++ unit
      /\ (length u <= length unit)%nat.
Proof.
  induction us as [| u0 us IH]; intros Hsorted Hne token u Hin Hends;
    [destruct Hin |].
  apply StronglySorted_inv in Hsorted as [Hsorted Hfirst].
  apply Forall_cons_iff in Hne as [Hu0 Hne].
  simpl. destruct (endswith token u0) eqn:H0.
  - exists u0. split; [now left |].
    apply endswith_app in H0 as [pre ->].
    rewrite py_slice_drop_end by exact Hu0. split; [reflexivity |].
    destruct Hin as [<- | Hin]; [lia |].
    rewrite List.Forall_forall in Hfirst. exact (Hfirst u Hin).
  - destruct Hin as [<- | Hin]; [congruence |].
    destruct (IH Hsorted Hne token u Hin Hends) as (unit & Hunit & Htok & Hlen).
    exists unit. split; [now right | split; assumption].
Qed.

Lemma strip_unit_from_none (us : list (list ascii)) (token : list ascii) :
  (forall u, In u us -> endswith token u = false) ->
  strip_unit_from us token = token.
Proof.
  induction us as [| u0 us IH]; intros Hnone; [reflexivity |].
  simpl. rewrite (Hnone u0) by now left.
  apply IH. intros u Hu. apply Hnone. now right.
Qed.

Lemma units_descending :
  StronglySorted (fun a b : list ascii => (length b <= length a)%nat) units.
Proof.
  unfold units. simpl.
  repeat (constructor; [| repeat constructor; simpl; lia]).
  constructor.
Qed.

Lemma units_nonempty : Forall (fun u : list ascii => u <> []) units.
Proof. unfold units. simpl. repeat constructor; discriminate. Qed.

Lemma last_snoc {A : Type} (l : list A) (x d : A) :
  List.last (l ++ [x]) d = x.
Proof.
  induction l as [| y l IH]; [reflexivity |].
  simpl. destruct (l ++ [x]) eqn:Hl; [| exact IH].
  destruct l; discriminate Hl.
Qed.

Lemma last_cons_default {A : Type} (cs : list A) :
  forall c0 d : A, List.last (c0 :: cs) d = List.last cs c0.
Proof.
  induction cs as [| c1 cs IH]; intros c0 d; [reflexivity |].
  change (List.last (c0 :: c1 :: cs) d) with (List.last (c1 :: cs) d).
  now rewrite !IH.
Qed.

Lemma split_si_prefix_snoc (numeral : list ascii) (p : ascii) :
  split_si_prefix (numeral ++ [p])
  = match dict_get si_prefixes p with
    | Some multiplier => (numeral, multiplier)
    | None => (numeral ++ [p], 1%float)
    end.
Proof.
  unfold split_si_prefix.
  pose proof (py_slice_drop_end numeral [p] ltac:(discriminate)) as Hcut.
  pose proof (last_snoc numeral p p) as Hlast.
  destruct (numeral ++ [p]) as [| c0 cs] eqn:Hs.
  - destruct numeral; discriminate Hs.
  - rewrite last_cons_default in Hlast. rewrite Hlast.
    destruct (dict_get si_prefixes p); [| reflexivity].
    f_equal. exact Hcut.
Qed.

(** The numeral reader agrees with correctly rounded literals at the
    edges of binary64: a tie at 2^53, the smallest subnormal, the
    overflow threshold, and values that are not representable. *)
Example float_of_str_rounding :
  float_of_str (str_of "0.1") = Ok 0.1%float
  /\ float_of_str (str_of "9007199254740993") = Ok 9007199254740992%float
  /\ float_of_str (str_of "4.9e-324") = Ok 4.9406564584124654e-324%float
  /\ float_of_str (str_of "2.4703282292062327e-324") = Ok 0%float
  /\ float_of_str (str_of "1.7976931348623157e308")
     = Ok 1.7976931348623157e+308%float
  /\ float_of_str (str_of "1e400") = Ok infinity
  /\ float_of_str (str_of "-1_0.5E1") = Ok (-105)%float
  /\ float_of_str (str_of "-INF") = Ok neg_infinity
  /\ float_of_str (str_of "1e") = Raise ValueError
  /\ float_of_str (str_of "1__0") = Raise ValueError
  /\ float_of_str (str_of "") = Raise ValueError.
Proof. repeat split; vm_compute; reflexivity. Qed.

(** A token without a unit loses a final [n] as the nano prefix. *)
Example parse_value_nan :
  parse_value (str_of "SARA nan") = Raise ValueError
  /\ parse_value (str_of "OFST -1.5mV") = Ok (-0.0015)%float
  /\ parse_value (str_of "   ") = Raise ValueError.
Proof. repeat split; vm_compute; reflexivity. Qed.

(** C5: [parse_value] returns the value of the last token with its unit
    cut off, the longest known unit that ends the token, and its SI
    prefix applied; the four documented responses give 0.2, 0.001,
    500000000.0 and 500000000.0. *)
Theorem parse_value_examples :
  parse_value (str_of "C1:VDIV 2.00E-01V") = Ok 0.2%float
  /\ parse_value (str_of "TDIV 1.00E-03s") = Ok 0.001%float
  /\ parse_value (str_of "SARA 5.00E+08Sa/s") = Ok 500000000%float
  /\ parse_value (str_of "SARA 500MSa/s") = Ok 500000000%float
  /\ (forall response : list ascii,
        parse_value response
        = let token := strip_unit (last_token (strip response)) in
          x ← float_of_str (fst (split_si_prefix token));
          Ok (x * snd (split_si_prefix token))%float)
  /\ (forall token u : list ascii,
        In u units -> endswith token u = true ->
        exists unit : list ascii,
          In unit units
          /\ token = strip_unit token ++ unit
          /\ (length u <= length unit)%nat)
  /\ (forall token : list ascii,
        (forall u, In u units -> endswith token u = false) ->
        strip_unit token = token)
  /\ (forall (numeral : list ascii) (p : ascii) (multiplier : float),
        dict_get si_prefixes p = Some multiplier ->
        split_si_prefix (numeral ++ [p]) = (numeral, multiplier))
  /\ (forall (numeral : list ascii) (p : ascii),
        dict_get si_prefixes p = None ->
        split_si_prefix (numeral ++ [p]) = (numeral ++ [p], 1%float))
  /\ map (dict_get si_prefixes) (str_of "GMkmunp")
     = map Some [1e9; 1e6; 1e3; 1e-3; 1e-6; 1e-9; 1e-12]%float.
Proof.
  do 4 (split; [vm_compute; reflexivity |]).
  split.
  { intros response. unfold parse_value.
    destruct (split_si_prefix (strip_unit (last_token (strip response))));
      reflexivity. }
  split.
  { intros token u. unfold strip_unit.
    apply strip_unit_from_longest;
      [apply units_descending | apply units_nonempty]. }
  split; [intros token; apply strip_unit_from_none |].
  split; [intros numeral p multiplier Hp;
          now rewrite split_si_prefix_snoc, Hp |].
  split; [intros numeral p Hp; now rewrite split_si_prefix_snoc, Hp |].
  vm_compute. reflexivity.
Qed.

End Parser.

Module TimeAxis.

(** *** What the comparisons of binary64 say about a zero divisor *)

Lemma positive_not_zero (x : float) :
  (0 <? x)%float = true -> (x =? 0)%float = false.
Proof.
  rewrite FloatAxioms.ltb_spec, FloatAxioms.eqb_spec.
  change (Prim2SF 0) with (S754_zero false).
  unfold SFltb, SFeqb.
  destruct (Prim2SF x) as [s | s | | s m e]; try destruct s; simpl;
    congruence.
Qed.

Lemma nonpositive_cases (x : float) :
  (x <=? 0)%float = true ->
  (x =? 0)%float = true
  \/ ((x <? 0)%float = true /\ (x =? 0)%float = false).
Proof.
  rewrite FloatAxioms.leb_spec, FloatAxioms.ltb_spec, FloatAxioms.eqb_spec.
  unfold SFleb, SFltb, SFeqb.
  destruct (SFcompare (Prim2SF x) (Prim2SF 0)) as [[| |] |];
    intros Hle; try discriminate Hle; auto.
Qed.

(** *** The axis in any arithmetic *)

Lemma range_length (n : Z) : length (range n) = Z.to_nat n.
Proof. unfold range. now rewrite length_map, length_seq. Qed.

Lemma range_nth_error (n : Z) (i : nat) (x : Z) :
  nth_error (range n) i = Some x -> x = Z.of_nat i /\ (i < Z.to_nat n)%nat.
Proof.
  unfold range. rewrite nth_error_map, nth_error_seq.
  destruct (Nat.ltb_spec i (Z.to_nat n)) as [Hlt | Hge]; simpl; intros Hx;
    [injection Hx as <-; split; [reflexivity | assumption] | discriminate Hx].
Qed.

Lemma time_axis_nonzero {F : Type} `{Arith F} (num_points : Z) (sara : F) :
  is_zero sara = false ->
  time_axis num_points sara
  = Ok (map (fun i => mul (sub (of_int i) (int_div num_points 2))
                          (div (of_int 1) sara))
            (range num_points)).
Proof.
  intros Hz. unfold time_axis, truediv. rewrite Hz. reflexivity.
Qed.

Lemma time_axis_zero {F : Type} `{Arith F} (num_points : Z) (sara : F) :
  is_zero sara = true ->
  time_axis num_points sara = Raise ZeroDivisionError.
Proof.
  intros Hz. unfold time_axis, truediv. rewrite Hz. reflexivity.
Qed.

(** *** The axis in exact arithmetic *)

Lemma exact_sample (num_points i : Z) (rate : Q) :
  (~ rate == 0)%Q ->
  (mul (sub (of_int i) (int_div num_points 2)) (div (of_int 1) rate)
   == (inject_Z i - inject_Z num_points / 2) / rate)%Q.
Proof.
  intros Hrate. simpl. change (inject_Z 2) with 2%Q.
  change (inject_Z 1) with 1%Q. field. exact Hrate.
Qed.

Lemma exact_sample_increasing (num_points i j : Z) (rate : Q) :
  (0 < rate)%Q -> i < j ->
  (mul (sub (of_int i) (int_div num_points 2)) (div (of_int 1) rate)
   < mul (sub (of_int j) (int_div num_points 2)) (div (of_int 1) rate))%Q.
Proof.
  intros Hrate Hij. simpl.
  apply Qmult_lt_compat_r.
  - unfold Qdiv. rewrite Qmult_1_l. now apply Qinv_lt_0_compat.
  - apply Qplus_lt_l. now rewrite <- Zlt_Qlt.
Qed.

(** *** The claims on the time axis *)

(** C6, as stated, fails in binary64.  The script multiplies by
    [dt = 1.0 / sara], which is rounded: for 6 samples at 5e8 Sa/s the
    first timestamp is not [(0 - 6/2) / sara] but the next binary64
    value below it.  And at an infinite rate, which is above zero, [dt]
    is 0 and the axis does not increase. *)
Lemma time_axis_not_quotient :
  (exists (times : list float) (t0 : float),
      time_axis 6 5e8%float = Ok times
      /\ nth_error times 0 = Some t0
      /\ (t0 =? (float_of_int 0 - int_truediv 6 2) / 5e8)%float = false
      /\ (t0 <? (float_of_int 0 - int_truediv 6 2) / 5e8)%float = true)
  /\ (0 <? infinity)%float = true
  /\ time_axis 2 infinity = Ok [-0; 0]%float
  /\ (-0 <? 0)%float = false.
Proof.
  split.
  - eexists. eexists. split; [vm_compute; reflexivity |].
    split; [reflexivity |]. split; vm_compute; reflexivity.
  - repeat split; vm_compute; reflexivity.
Qed.

(** C6, amended: for every sample count N >= 0 and every rate above
    zero the builder produces exactly N timestamps
    t_i = (i - N/2) * (1.0 / sara), i in 0..N-1, with N/2 by real
    division, and for N = 4 and sara = 1.0 the axis is
    [-2.0, -1.0, 0.0, 1.0].  In exact arithmetic, where nothing is
    rounded, t_i equals (i - N/2) / sara and the axis is strictly
    increasing. *)
Theorem time_axis_values (num_points : Z) (sara : float) (rate : Q) :
  0 <= num_points ->
  (0 <? sara)%float = true ->
  (0 < rate)%Q ->
  (exists times : list float,
      time_axis num_points sara = Ok times
      /\ times
         = map (fun i =>
                  ((float_of_int i - int_truediv num_points 2) * (1 / sara))%float)
               (range num_points)
      /\ Z.of_nat (length times) = num_points)
  /\ time_axis 4 1%float = Ok [-2; -1; 0; 1]%float
  /\ (exists times : list Q,
        time_axis num_points rate = Ok times
        /\ Z.of_nat (length times) = num_points
        /\ (forall (i : nat) (t : Q),
              nth_error times i = Some t ->
              (t == (inject_Z (Z.of_nat i) - inject_Z num_points / 2) / rate)%Q)
        /\ (forall (i j : nat) (ti tj : Q),
              (i < j)%nat ->
              nth_error times i = Some ti ->
              nth_error times j = Some tj ->
              (ti < tj)%Q)).
Proof.
  intros Hn Hsara Hrate.
  split; [| split; [vm_compute; reflexivity |]].
  - eexists. split; [| split; [reflexivity |]].
    + rewrite (@time_axis_nonzero float binary64 num_points sara
                 (positive_not_zero sara Hsara)).
      reflexivity.
    + rewrite length_map, range_length. lia.
  - assert (Hnz : (~ rate == 0)%Q).
    { intros Heq. rewrite Heq in Hrate. discriminate Hrate. }
    assert (Hz : is_zero rate = false).
    { simpl. destruct (Qeq_bool rate 0) eqn:Hb; [| reflexivity].
      apply Qeq_bool_eq in Hb. contradiction. }
    eexists. split; [exact (time_axis_nonzero num_points rate Hz) |].
    split; [rewrite length_map, range_length; lia |]. split.
    + intros i t Ht. rewrite nth_error_map in Ht.
      destruct (nth_error (range num_points) i) as [x |] eqn:Hx;
        [| discriminate Ht].
      apply range_nth_error in Hx as [-> _].
      simpl in Ht. injection Ht as <-.
      exact (exact_sample num_points (Z.of_nat i) rate Hnz).
    + intros i j ti tj Hij Hi Hj. rewrite nth_error_map in Hi, Hj.
      destruct (nth_error (range num_points) i) as [x |] eqn:Hx;
        [| discriminate Hi].
      destruct (nth_error (range num_points) j) as [y |] eqn:Hy;
        [| discriminate Hj].
      apply range_nth_error in Hx as [-> _].
      apply range_nth_error in Hy as [-> _].
      simpl in Hi, Hj. injection Hi as <-. injection Hj as <-.
      apply (exact_sample_increasing num_points _ _ rate Hrate). lia.
Qed.

Lemma time_axis_values_witness :
  time_axis 4 1%float = Ok [-2; -1; 0; 1]%float
  /\ exists times : list Q,
      time_axis 4 1%Q = Ok times /\ Z.of_nat (length times) = 4.
Proof.
  destruct (time_axis_values 4 1%float 1%Q) as (_ & Hfloat & times & Hq & Hlen & _);
    [lia | reflexivity | reflexivity |].
  split; [exact Hfloat |]. exists times. split; [exact Hq | exact Hlen].
Defined.

(** C7, as stated, fails: a negative rate raises nothing, and the four
    timestamps come out in decreasing order. *)
Lemma negative_rate_accepted :
  (-1 <=? 0)%float = true
  /\ time_axis 4 (-1)%float = Ok [2; 1; -0; -1]%float.
Proof. split; vm_compute; reflexivity. Qed.

(** C7, amended: for every sample count and every rate that is not
    above zero, building the axis fails, with the error of the division
    [1.0 / sara], exactly when the rate is zero; a rate below zero
    raises nothing and yields the timestamps
    (i - N/2) * (1.0 / sara). *)
Theorem time_axis_rate_check (num_points : Z) (sara : float) :
  (sara <=? 0)%float = true ->
  ((sara =? 0)%float = true
   /\ time_axis num_points sara = Raise ZeroDivisionError)
  \/ ((sara <? 0)%float = true
      /\ time_axis num_points sara
         = Ok (map (fun i =>
                      ((float_of_int i - int_truediv num_points 2)
                       * (1 / sara))%float)
                   (range num_points))).
Proof.
  intros Hle.
  destruct (nonpositive_cases sara Hle) as [Hz | [Hneg Hnz]].
  - left. split; [exact Hz |].
    exact (@time_axis_zero float binary64 num_points sara Hz).
  - right. split; [exact Hneg |].
    now rewrite (@time_axis_nonzero float binary64 num_points sara Hnz).
Qed.

Lemma time_axis_rate_check_witness :
  (0 <=? 0)%float = true
  /\ time_axis 4 0%float = Raise ZeroDivisionError.
Proof.
  split; [reflexivity |].
  destruct (time_axis_rate_check 4 0%float eq_refl) as [[_ Hx] | [Hneg _]];
    [exact Hx | discriminate Hneg].
Defined.

End TimeAxis.

Module Decimator.

(** *** Strided slices *)

(** The [j]-th sample kept is sample [wait + j * skip] of the input. *)
Lemma stride_from_nth (A : Type) (skip : nat) (l : list A) :
  (1 <= skip)%nat ->
  forall wait j : nat,
    nth_error (stride_from skip wait l) j = nth_error l (wait + j * skip).
Proof.
  intros Hskip. induction l as [| x l IH]; intros wait j.
  - simpl. destruct j; destruct (wait + _)%nat; reflexivity.
  - destruct wait as [| w]; simpl.
    + destruct j as [| j]; [reflexivity |].
      simpl. rewrite IH.
      replace (skip + j * skip)%nat with (S (skip - 1 + j * skip)) by lia.
      reflexivity.
    + apply IH.
Qed.

Section Stride.

Context {A : Type} (skip : Z).
Hypothesis skip_pos : 1 <= skip.

Lemma py_stride_nth (l : list A) (j : nat) :
  nth_error (py_stride skip l) j = nth_error l (j * Z.to_nat skip).
Proof using skip_pos.
  unfold py_stride. rewrite stride_from_nth by lia. reflexivity.
Qed.

(** The slice has a [j]-th sample exactly when [j * skip] is an index
    of the input: its length is the input length over [skip], rounded
    up. *)
Lemma py_stride_index (l : list A) (j : nat) :
  (j < length (py_stride skip l))%nat
  <-> (j * Z.to_nat skip < length l)%nat.
Proof using skip_pos.
  rewrite <- !nth_error_Some, py_stride_nth. reflexivity.
Qed.

Lemma py_stride_length_le (l l' : list A) :
  (length l <= length l')%nat ->
  (length (py_stride skip l) <= length (py_stride skip l'))%nat.
Proof using skip_pos.
  intros Hle.
  destruct (Nat.le_gt_cases (length (py_stride skip l))
                            (length (py_stride skip l'))) as [Hn | Hn];
    [exact Hn | exfalso].
  apply py_stride_index in Hn.
  assert (Hn' : (length (py_stride skip l') * Z.to_nat skip
                 < length l')%nat) by lia.
  apply py_stride_index in Hn'. lia.
Qed.

Lemma py_stride_length_eq (l l' : list A) :
  length l = length l' ->
  length (py_stride skip l) = length (py_stride skip l').
Proof using skip_pos.
  intros Heq. apply Nat.le_antisymm; apply py_stride_length_le; lia.
Qed.

End Stride.

Lemma py_stride_one (A : Type) (l : list A) : py_stride 1 l = l.
Proof.
  unfold py_stride. change (Z.to_nat 1) with 1%nat.
  induction l as [| x l IH]; [reflexivity |].
  simpl. f_equal. exact IH.
Qed.

Lemma stride_of_ge_1 (num_points maxpoints : Z) :
  1 <= stride_of num_points maxpoints.
Proof.
  unfold stride_of. cbv zeta.
  destruct (Z.ltb_spec (num_points / maxpoints) 1); lia.
Qed.

(** Between one and two times the budget the stride is 1. *)
Lemma stride_of_under_twice (num_points maxpoints : Z) :
  0 < maxpoints -> maxpoints < num_points < 2 * maxpoints ->
  stride_of num_points maxpoints = 1.
Proof.
  intros Hm Hn. unfold stride_of. cbv zeta.
  assert (Hq : num_points / maxpoints = 1)
    by (symmetry; apply (Z.div_unique num_points maxpoints 1
                           (num_points - maxpoints)); lia).
  rewrite Hq. reflexivity.
Qed.

(** *** The claims on decimation *)

Lemma decimate_under_twice (F : Type) (m n : Z) (times : list F)
    (channel_data : gmap Z (list F)) :
  0 < m -> m < n < 2 * m ->
  decimate (Some m) n times channel_data = (times, channel_data).
Proof.
  intros Hm Hn. unfold decimate, must_decimate.
  destruct (Z.eqb_spec m 0) as [-> | _]; [lia |].
  destruct (Z.ltb_spec m n); [| lia]. simpl.
  rewrite (stride_of_under_twice n m Hm Hn), py_stride_one. f_equal.
  apply map_eq. intros ch. rewrite lookup_fmap.
  destruct (channel_data !! ch); simpl; [now rewrite py_stride_one |].
  reflexivity.
Qed.

Example decimate_1000_100 :
  stride_of 1000 100 = 10
  /\ py_stride 10 (range 1000) = map (fun j => 10 * j) (range 100).
Proof. split; vm_compute; reflexivity. Qed.

(** C4 fails on the code: with 3 captured points and a budget of 2 the
    stride is 3 // 2 = 1, and the axis and the channel keep all 3
    points.  The same happens for every count between the budget and
    twice the budget: nothing is dropped. *)
Theorem budget_exceeded :
  must_decimate (Some 2) 3 = true
  /\ stride_of 3 2 = 1
  /\ (exists (times : list float) (channel_data : gmap Z (list float)),
        capture_result (Some 2) 1%float {[1 := [1; 2; 3]%float]}
        = Ok (times, channel_data)
        /\ times = [-1.5; -0.5; 0.5]%float
        /\ channel_data !! 1 = Some [1; 2; 3]%float
        /\ length times = 3%nat)
  /\ (forall (m n : Z) (times : list float)
             (channel_data : gmap Z (list float)),
        0 < m -> m < n < 2 * m ->
        decimate (Some m) n times channel_data = (times, channel_data)).
Proof.
  split; [reflexivity |]. split; [reflexivity |]. split.
  - eexists. eexists. split; [vm_compute; reflexivity |].
    repeat split; reflexivity.
  - intros m n times channel_data. apply decimate_under_twice.
Qed.

(** C9, as stated, fails: the axis is sized to the longest channel, so
    a shorter channel, cut with the same stride, comes out shorter than
    the axis. *)
Lemma shorter_channel_misaligned :
  exists (times : list float) (channel_data : gmap Z (list float)),
    capture_result (Some 2) 1%float
      (<[1 := [10; 11; 12; 13]%float]> {[2 := [20; 21]%float]})
    = Ok (times, channel_data)
    /\ times = [-2; 0]%float
    /\ channel_data !! 1 = Some [10; 12]%float
    /\ channel_data !! 2 = Some [20]%float.
Proof.
  eexists. eexists. split; [vm_compute; reflexivity |].
  repeat split; reflexivity.
Qed.

(** C9, amended: whenever the Decimator reduces a capture, the axis and
    every channel are cut with the same stride [skip >= 1]: sample [j]
    of each output is sample [j * skip] of its input, so each keeps the
    indices 0, skip, 2*skip, ... below its own length.  A channel as
    long as the axis comes out as long as the axis; a shorter channel
    comes out no longer, and may come out shorter. *)
Theorem decimate_alignment (F : Type) (m num_points : Z) (times : list F)
    (channel_data : gmap Z (list F)) :
  must_decimate (Some m) num_points = true ->
  let skip := stride_of num_points m in
  let out := decimate (Some m) num_points times channel_data in
  1 <= skip
  /\ fst out = py_stride skip times
  /\ (forall ch : Z, snd out !! ch = py_stride skip <$> channel_data !! ch)
  /\ (forall (l : list F) (j : nat),
        nth_error (py_stride skip l) j = nth_error l (j * Z.to_nat skip))
  /\ (forall (ch : Z) (v : list F),
        channel_data !! ch = Some v ->
        length v = length times ->
        length (py_stride skip v) = length (py_stride skip times))
  /\ (forall (ch : Z) (v : list F),
        channel_data !! ch = Some v ->
        (length v <= length times)%nat ->
        (length (py_stride skip v) <= length (py_stride skip times))%nat).
Proof.
  intros Hdec skip out.
  assert (Hskip : 1 <= skip) by apply stride_of_ge_1.
  subst out. unfold decimate. rewrite Hdec. fold skip. simpl.
  split; [exact Hskip |]. split; [reflexivity |].
  split; [intros ch; apply lookup_fmap |].
  split; [intros l j; exact (py_stride_nth skip Hskip l j) |].
  split.
  - intros ch v _ Hlen. now apply py_stride_length_eq.
  - intros ch v _ Hlen. now apply py_stride_length_le.
Qed.

Lemma decimate_alignment_witness :
  must_decimate (Some 2) 4 = true
  /\ fst (decimate (Some 2) 4 [0; 1; 2; 3] {[1 := [10; 11; 12; 13]]})
     = [0; 2]
  /\ snd (decimate (Some 2) 4 [0; 1; 2; 3] {[1 := [10; 11; 12; 13]]}) !! 1
     = Some [10; 12].
Proof.
  split; [reflexivity |].
  destruct (decimate_alignment Z 2 4 [0; 1; 2; 3] {[1 := [10; 11; 12; 13]]}
              eq_refl) as (_ & Haxis & Hch & _).
  split; [exact Haxis |]. exact (Hch 1).
Defined.

End Decimator.

(** * Further properties of the script *)

Module Framing.

(** [find] either meets the pattern at a first index or reports -1
    after the pattern failed at every index. *)
Lemma find_from_spec (sub : list byte) (l : list byte) :
  forall i : Z,
    (find_from sub l i = -1
     /\ forall j : nat, starts_with sub (skipn j l) = false)
    \/ (exists m : nat,
          find_from sub l i = i + Z.of_nat m
          /\ starts_with sub (skipn m l) = true
          /\ forall j : nat, (j < m)%nat -> starts_with sub (skipn j l) = false).
Proof.
  induction l as [| x l IH]; intros i.
  - change (find_from sub [] i) with (if starts_with sub [] then i else -1).
    destruct (starts_with sub []) eqn:H0.
    + right. exists 0%nat.
      split; [lia | split; [exact H0 | intros j Hj; lia]].
    + left. split; [reflexivity |].
      intros j. now rewrite skipn_nil.
  - destruct (starts_with sub (x :: l)) eqn:H0.
    + right. exists 0%nat.
      change (find_from sub (x :: l) i)
        with (if starts_with sub (x :: l) then i else find_from sub l (i + 1)).
      rewrite H0. split; [lia | split; [exact H0 | intros j Hj; lia]].
    + change (find_from sub (x :: l) i)
        with (if starts_with sub (x :: l) then i else find_from sub l (i + 1)).
      rewrite H0.
      destruct (IH (i + 1)) as [[Hnone Hall] | (m & Hm & Hat & Hbefore)].
      * left. split; [exact Hnone |].
        intros [| j]; [exact H0 | exact (Hall j)].
      * right. exists (S m). split; [lia |]. split; [exact Hat |].
        intros [| j] Hj; [exact H0 | apply Hbefore; lia].
Qed.

Lemma bytes_find_none (raw : list byte) :
  bytes_find raw block_marker = -1
  <-> forall j : nat, marker_at raw j = false.
Proof.
  unfold bytes_find, marker_at.
  destruct (find_from_spec block_marker raw 0)
    as [[Hnone Hall] | (m & Hm & Hat & _)].
  - split; [intros _; exact Hall | intros _; exact Hnone].
  - split; [intros Hneg; lia | intros Hall; rewrite Hall in Hat; discriminate].
Qed.

(** The outcome of an extraction with no marker in the buffer. *)
Lemma extract_without_marker (raw : list byte) :
  (forall j : nat, marker_at raw j = false) ->
  extract_block raw = Raise ValueError.
Proof.
  intros Hall. apply bytes_find_none in Hall.
  unfold extract_block. rewrite Hall. reflexivity.
Qed.

(** A well-formed response: a prefix without the marker, the marker,
    nine digits that give the length of the payload, the payload and a
    trailer. *)
Lemma extract_framed (prefix digits payload trailer : list byte) :
  (forall j : nat,
      (j < length prefix)%nat ->
      marker_at (prefix ++ block_marker ++ digits ++ payload ++ trailer) j
      = false) ->
  length digits = 9%nat ->
  forallb is_digit_byte digits = true ->
  bytes_decimal digits = Z.of_nat (length payload) ->
  extract_block (prefix ++ block_marker ++ digits ++ payload ++ trailer)
  = Ok payload.
Proof.
  intros Hbefore Hlen Hdigits Hvalue.
  set (raw := prefix ++ block_marker ++ digits ++ payload ++ trailer).
  assert (Hat : marker_at raw (length prefix) = true).
  { unfold marker_at, raw. now rewrite drop_app_length. }
  pose proof (Extractor.bytes_find_first raw (length prefix) Hat Hbefore)
    as Hfind.
  destruct (Extractor.extract_block_at raw (length prefix) Hfind)
    as [_ Hextract].
  assert (Hfield : firstn 9 (skipn (length prefix + 2) raw) = digits).
  { unfold raw.
    replace (prefix ++ block_marker ++ digits ++ payload ++ trailer)
      with ((prefix ++ block_marker) ++ digits ++ payload ++ trailer)
      by now rewrite <- app_assoc.
    rewrite drop_app_length' by (rewrite length_app; simpl; lia).
    rewrite <- Hlen. now rewrite take_app_length. }
  assert (Hpayload :
            firstn (length payload) (skipn (length prefix + 11) raw)
            = payload).
  { unfold raw.
    replace (prefix ++ block_marker ++ digits ++ payload ++ trailer)
      with ((prefix ++ block_marker ++ digits) ++ payload ++ trailer)
      by now rewrite <- !app_assoc.
    rewrite drop_app_length' by (rewrite !length_app; simpl; lia).
    now rewrite take_app_length. }
  rewrite Hextract, Hfield.
  rewrite Extractor.int_of_digits;
    [| intros Hnil; rewrite Hnil in Hlen; discriminate Hlen | exact Hdigits].
  simpl. rewrite Hvalue, Extractor.py_slice_nonneg by lia.
  replace (Z.to_nat (Z.of_nat (length prefix) + 11
                     + Z.of_nat (length payload)
                     - (Z.of_nat (length prefix) + 11)))
    with (length payload) by lia.
  replace (Z.to_nat (Z.of_nat (length prefix) + 11))
    with (length prefix + 11)%nat by lia.
  now rewrite Hpayload.
Qed.

(** Block extraction raises nothing but [ValueError]. *)
Lemma extract_block_error (raw : list byte) (e : exn) :
  extract_block raw = Raise e -> e = ValueError.
Proof.
  unfold extract_block.
  destruct (bytes_find raw block_marker =? -1); [congruence |].
  destruct (int_of_bytes (length_field raw (bytes_find raw block_marker)))
    as [n | e'] eqn:Hint; simpl; [discriminate |].
  intros He. injection He as <-.
  unfold int_of_bytes in Hint.
  repeat match type of Hint with
         | context [match ?x with _ => _ end] => destruct x
         end; congruence.
Qed.

(** X7: a buffer without the marker is never searched for a length:
    [find] gives -1 exactly when the marker occurs at no index, and
    the extraction then raises [ValueError]. *)
Theorem missing_marker (raw : list byte) :
  (forall j : nat, marker_at raw j = false) ->
  bytes_find raw block_marker = -1
  /\ extract_block raw = Raise ValueError.
Proof.
  intros Hall. split; [now apply bytes_find_none |].
  now apply extract_without_marker.
Qed.

Lemma missing_marker_witness :
  bytes_find (bytes_of "C#") block_marker = -1
  /\ extract_block (bytes_of "C#") = Raise ValueError.
Proof.
  apply (missing_marker (bytes_of "C#")).
  intros j. do 3 (destruct j as [| j]; [reflexivity |]). reflexivity.
Defined.

(** X8: the framing round trip: from a prefix that holds no marker, the
    marker, nine digits that give the payload length, the payload and
    any trailer, the extraction returns the payload exactly. *)
Theorem framed_payload (prefix digits payload trailer : list byte) :
  (forall j : nat,
      (j < length prefix)%nat ->
      marker_at (prefix ++ block_marker ++ digits ++ payload ++ trailer) j
      = false) ->
  length digits = 9%nat ->
  forallb is_digit_byte digits = true ->
  bytes_decimal digits = Z.of_nat (length payload) ->
  extract_block (prefix ++ block_marker ++ digits ++ payload ++ trailer)
  = Ok payload.
Proof. apply extract_framed. Qed.

Lemma framed_payload_witness :
  extract_block (bytes_of "junk" ++ block_marker ++ bytes_of "000000005"
                 ++ bytes_of "HELLO" ++ bytes_of "trailer")
  = Ok (bytes_of "HELLO").
Proof.
  apply (framed_payload (bytes_of "junk") (bytes_of "000000005")
           (bytes_of "HELLO") (bytes_of "trailer"));
    [| reflexivity | reflexivity | reflexivity].
  intros j Hj. do 4 (destruct j as [| j]; [reflexivity |]).
  simpl in Hj. lia.
Defined.

End Framing.

Module Values.

(** *** Tokens *)

Lemma lstrip_app_nonspace (a t : list ascii) (c : ascii) :
  is_space c = false -> lstrip (a ++ c :: t) = lstrip a ++ c :: t.
Proof.
  intros Hc. induction a as [| x a IH]; simpl.
  - now rewrite Hc.
  - destruct (is_space x); [exact IH | reflexivity].
Qed.

Lemma lstrip_nonspace (t : list ascii) :
  forallb (fun c => negb (is_space c)) t = true -> lstrip t = t.
Proof.
  destruct t as [| c t]; [reflexivity |]. simpl.
  destruct (is_space c); [discriminate | reflexivity].
Qed.

Lemma lstrip_spaces (s : list ascii) :
  forallb is_space s = true -> lstrip s = [].
Proof.
  induction s as [| c s IH]; [reflexivity |]. simpl.
  destruct (is_space c); [exact IH | discriminate].
Qed.

(** A string that ends with a character that is not whitespace loses
    nothing at its end. *)
Lemma strip_ends_nonspace (s : list ascii) (c : ascii) :
  is_space c = false -> strip (s ++ [c]) = lstrip (s ++ [c]).
Proof.
  intros Hc. unfold strip. rewrite lstrip_app_nonspace by exact Hc.
  rewrite rev_app_distr. simpl. rewrite Hc. simpl.
  now rewrite rev_involutive.
Qed.

Lemma nonspace_last (t : list ascii) :
  t <> [] ->
  forallb (fun c => negb (is_space c)) t = true ->
  exists (t0 : list ascii) (c : ascii), t = t0 ++ [c] /\ is_space c = false.
Proof.
  intros Hne Hall.
  destruct (exists_last Hne) as (t0 & c & ->).
  exists t0, c. split; [reflexivity |].
  rewrite forallb_app in Hall. apply andb_true_iff in Hall as [_ Hc].
  simpl in Hc. now destruct (is_space c).
Qed.

Lemma split_from_token (t : list ascii) :
  forall cur : list ascii,
    forallb (fun c => negb (is_space c)) t = true ->
    cur ++ t <> [] ->
    split_from cur t = [rev cur ++ t].
Proof.
  induction t as [| c t IH]; intros cur Hall Hne.
  - rewrite app_nil_r in Hne |- *. simpl.
    destruct cur; [congruence | reflexivity].
  - simpl in Hall. apply andb_true_iff in Hall as [Hc Hall].
    simpl. destruct (is_space c); [discriminate Hc |].
    rewrite IH; [| exact Hall | discriminate].
    simpl. now rewrite <- app_assoc.
Qed.

(** After whitespace, a last run of other characters is the last
    token, whatever came before. *)
Lemma split_from_last (sp : ascii) (t : list ascii) (a : list ascii) :
  is_space sp = true ->
  t <> [] ->
  forallb (fun c => negb (is_space c)) t = true ->
  forall cur : list ascii,
  exists toks : list (list ascii),
    split_from cur (a ++ sp :: t) = toks ++ [t].
Proof.
  intros Hsp Hne Hall.
  assert (Htok : split_from [] t = [t]).
  { rewrite split_from_token; [reflexivity | exact Hall |].
    now destruct t. }
  induction a as [| x a IH]; intros cur; simpl.
  - rewrite Hsp, Htok.
    destruct cur; [now exists [] | now eexists [_]].
  - destruct (is_space x); [| apply IH].
    destruct cur as [| c cur]; [apply IH |].
    destruct (IH []) as [toks ->]. now eexists (_ :: toks).
Qed.

Lemma last_of_tokens (toks : list (list ascii)) (t r : list ascii) :
  match toks ++ [t] with
  | [] => r
  | x :: ts => List.last ts x
  end = t.
Proof.
  destruct toks as [| x toks]; [reflexivity |]. simpl.
  apply Parser.last_snoc.
Qed.

Lemma last_token_plain (t : list ascii) :
  t <> [] ->
  forallb (fun c => negb (is_space c)) t = true ->
  last_token t = t.
Proof.
  intros Hne Hall. unfold last_token, split.
  rewrite split_from_token; [reflexivity | exact Hall | now destruct t].
Qed.

Lemma last_token_lstrip (sp : ascii) (t : list ascii) :
  is_space sp = true ->
  t <> [] ->
  forallb (fun c => negb (is_space c)) t = true ->
  forall echo : list ascii, last_token (lstrip (echo ++ sp :: t)) = t.
Proof.
  intros Hsp Hne Hall echo. induction echo as [| x echo IH].
  - simpl. rewrite Hsp, (lstrip_nonspace t Hall).
    now apply last_token_plain.
  - simpl. destruct (is_space x) eqn:Hx; [exact IH |].
    unfold last_token, split.
    destruct (split_from_last sp t (x :: echo) Hsp Hne Hall [])
      as [toks Htoks].
    simpl in Htoks |- *. rewrite Hx in Htoks |- *. rewrite Htoks.
    apply last_of_tokens.
Qed.

(** The token that [parse_value] reads from a response that ends with
    whitespace and a token. *)
Lemma value_token_echo (sp : ascii) (echo t : list ascii) :
  is_space sp = true ->
  t <> [] ->
  forallb (fun c => negb (is_space c)) t = true ->
  last_token (strip (echo ++ sp :: t)) = t.
Proof.
  intros Hsp Hne Hall.
  destruct (nonspace_last t Hne Hall) as (t0 & c & Ht & Hc).
  replace (echo ++ sp :: t) with ((echo ++ sp :: t0) ++ [c])
    by (rewrite Ht, <- app_assoc; reflexivity).
  rewrite strip_ends_nonspace by exact Hc.
  replace ((echo ++ sp :: t0) ++ [c]) with (echo ++ sp :: t)
    by (rewrite Ht, <- app_assoc; reflexivity).
  now apply last_token_lstrip.
Qed.

Lemma value_token_plain (t : list ascii) :
  t <> [] ->
  forallb (fun c => negb (is_space c)) t = true ->
  last_token (strip t) = t.
Proof.
  intros Hne Hall.
  destruct (nonspace_last t Hne Hall) as (t0 & c & Ht & Hc).
  rewrite Ht, strip_ends_nonspace by exact Hc. rewrite <- Ht.
  rewrite (lstrip_nonspace t Hall). now apply last_token_plain.
Qed.

Lemma strip_token (t : list ascii) :
  forallb (fun c => negb (is_space c)) t = true -> strip t = t.
Proof.
  intros Hall. destruct t as [| c0 t0] eqn:Ht; [reflexivity |].
  rewrite <- Ht in *.
  destruct (nonspace_last t ltac:(rewrite Ht; discriminate) Hall)
    as (t1 & c & Heq & Hc).
  rewrite Heq, strip_ends_nonspace by exact Hc. rewrite <- Heq.
  now apply lstrip_nonspace.
Qed.

(** *** Units and prefixes after a numeral *)

Ltac strip_unit_compute :=
  unfold strip_unit, units; cbn [map strip_unit_from];
  unfold endswith; rewrite ?rev_app_distr;
  cbn [rev str_of list_ascii_of_string app str_starts_with
       Ascii.eqb Bool.eqb andb];
  lazymatch goal with
  | |- py_slice (?s ++ ?c :: ?u) _ _ = _ =>
      change (s ++ c :: u) with (s ++ ([c] ++ u));
      rewrite (app_assoc s [c] u);
      apply Parser.py_slice_drop_end; discriminate
  | |- _ => reflexivity
  end.

(** After such a character a unit of the list, or no unit, is cut off
    exactly: no longer unit of the list ends the token. *)
Lemma strip_unit_after (s u : list ascii) (c : ascii) :
  u = [] \/ In u units ->
  closes_numeral c = true ->
  strip_unit (s ++ c :: u) = s ++ [c]
  /\ forallb (fun a => negb (is_space a)) (c :: u) = true.
Proof.
  intros Hu Hc.
  destruct c as [[] [] [] [] [] [] [] []];
    try (vm_compute in Hc; discriminate Hc); clear Hc;
    (destruct Hu as [-> | Hu];
     [| unfold units in Hu; simpl in Hu;
        repeat (destruct Hu as [<- | Hu]); try contradiction]);
    (split; [strip_unit_compute | reflexivity]).
Qed.

Lemma digit_no_prefix (c : ascii) :
  is_digit c = true -> dict_get si_prefixes c = None.
Proof.
  destruct c as [[] [] [] [] [] [] [] []]; intros Hc;
    try (vm_compute in Hc; discriminate Hc); reflexivity.
Qed.

(** [float] raises nothing but [ValueError], and so does
    [parse_value]. *)
Lemma float_of_str_error (s : list ascii) (e : exn) :
  float_of_str s = Raise e -> e = ValueError.
Proof.
  unfold float_of_str.
  destruct (remove_underscores false false s); [| congruence].
  destruct (take_sign (strip l)) as [negative s1].
  destruct (read_magnitude s1); congruence.
Qed.

Lemma parse_value_error (response : list ascii) (e : exn) :
  parse_value response = Raise e -> e = ValueError.
Proof.
  unfold parse_value.
  destruct (split_si_prefix _) as [value_str multiplier].
  destruct (float_of_str value_str) as [x | e'] eqn:Hx; simpl;
    [discriminate |].
  intros He. injection He as <-. exact (float_of_str_error _ _ Hx).
Qed.

Lemma parse_value_token (t : list ascii) :
  t <> [] ->
  forallb (fun c => negb (is_space c)) t = true ->
  parse_value t
  = (x ← float_of_str (fst (split_si_prefix (strip_unit t)));
     Ok (x * snd (split_si_prefix (strip_unit t)))%float).
Proof.
  intros Hne Hall. unfold parse_value.
  rewrite (value_token_plain t Hne Hall).
  now destruct (split_si_prefix (strip_unit t)).
Qed.

Lemma parse_value_echo (sp : ascii) (echo t : list ascii) :
  is_space sp = true ->
  t <> [] ->
  forallb (fun c => negb (is_space c)) t = true ->
  parse_value (echo ++ sp :: t) = parse_value t.
Proof.
  intros Hsp Hne Hall. rewrite (parse_value_token t Hne Hall).
  unfold parse_value. rewrite (value_token_echo sp echo t Hsp Hne Hall).
  now destruct (split_si_prefix (strip_unit t)).
Qed.

(** The value of a numeral that a closing character [c] ends, followed
    by a unit or by nothing. *)
Lemma parse_value_numeral (s u : list ascii) (c : ascii) :
  u = [] \/ In u units ->
  closes_numeral c = true ->
  forallb (fun a => negb (is_space a)) s = true ->
  parse_value (s ++ c :: u)
  = (x ← float_of_str (fst (split_si_prefix (s ++ [c])));
     Ok (x * snd (split_si_prefix (s ++ [c])))%float).
Proof.
  intros Hu Hc Hs.
  destruct (strip_unit_after s u c Hu Hc) as [Hstrip Hcu].
  rewrite parse_value_token.
  - now rewrite Hstrip.
  - now destruct s.
  - now rewrite forallb_app, Hs, Hcu.
Qed.

(** *** Properties of [parse_value] *)

(** X1: the command echo is ignored: a response that ends with
    whitespace and a token has the value of the token alone. *)
Theorem echo_is_ignored (sp : ascii) (echo t : list ascii) :
  is_space sp = true ->
  t <> [] ->
  forallb (fun c => negb (is_space c)) t = true ->
  parse_value (echo ++ sp :: t) = parse_value t.
Proof. apply parse_value_echo. Qed.

Lemma echo_is_ignored_witness :
  parse_value (str_of "C1:VDIV" ++ " "%char :: str_of "2.00E-01V")
  = parse_value (str_of "2.00E-01V")
  /\ parse_value (str_of "2.00E-01V") = Ok 0.2%float.
Proof.
  split; [| vm_compute; reflexivity].
  apply (echo_is_ignored " "%char (str_of "C1:VDIV") (str_of "2.00E-01V"));
    [reflexivity | discriminate | reflexivity].
Defined.

(** X2: an empty response, or one made of whitespace only, raises
    [ValueError]. *)
Theorem blank_response (response : list ascii) :
  forallb is_space response = true ->
  parse_value response = Raise ValueError.
Proof.
  intros Hall. unfold parse_value, strip.
  rewrite (lstrip_spaces response Hall). vm_compute. reflexivity.
Qed.

Lemma blank_response_witness :
  parse_value (str_of "   ") = Raise ValueError
  /\ parse_value [] = Raise ValueError.
Proof.
  split; [apply (blank_response (str_of "   ")) |
          apply (blank_response [])]; reflexivity.
Defined.

(** X3: for a response made of an echo, whitespace, a numeral that a
    digit or an SI prefix letter ends, and a unit of the list or no
    unit, the value is [float] of the numeral times the multiplier of
    the prefix, or times 1.0 without a prefix; it raises when [float]
    does. *)
Theorem value_of_numeral (sp : ascii) (echo s u : list ascii) (c : ascii) :
  is_space sp = true ->
  u = [] \/ In u units ->
  closes_numeral c = true ->
  forallb (fun a => negb (is_space a)) s = true ->
  parse_value (echo ++ sp :: s ++ c :: u)
  = match dict_get si_prefixes c with
    | Some multiplier => x ← float_of_str s; Ok (x * multiplier)%float
    | None => x ← float_of_str (s ++ [c]); Ok (x * 1)%float
    end.
Proof.
  intros Hsp Hu Hc Hs.
  destruct (strip_unit_after s u c Hu Hc) as [_ Hcu].
  rewrite parse_value_echo;
    [| exact Hsp | now destruct s | now rewrite forallb_app, Hs, Hcu].
  rewrite (parse_value_numeral s u c Hu Hc Hs).
  rewrite Parser.split_si_prefix_snoc.
  destruct (dict_get si_prefixes c); reflexivity.
Qed.

Lemma value_of_numeral_witness :
  parse_value (str_of "SARA" ++ " "%char :: str_of "500"
               ++ "M"%char :: str_of "Sa/s")
  = Ok 500000000%float.
Proof.
  rewrite (value_of_numeral " "%char (str_of "SARA") (str_of "500")
             (str_of "Sa/s") "M"%char);
    [vm_compute; reflexivity | reflexivity | right; simpl; tauto
    | reflexivity | reflexivity].
Defined.

End Values.

Module Channel.

Lemma byte_value_inj (a b : byte) : byte_value a = byte_value b -> a = b.
Proof.
  unfold byte_value. intros H. apply N2Z.inj in H.
  pose proof (Byte.of_to_N a) as Ha. rewrite H, Byte.of_to_N in Ha.
  now injection Ha.
Qed.

(** X4: the code mapping sends bytes 0 and 255 to the same code and is
    one-to-one everywhere else, so that the two bytes cannot be told
    apart after decoding. *)
Theorem signed_code_collisions (a b : byte) :
  signed_code (byte_value a) = signed_code (byte_value b)
  <-> a = b
      \/ (byte_value a = 0 /\ byte_value b = 255)
      \/ (byte_value a = 255 /\ byte_value b = 0).
Proof.
  pose proof (Decoder.byte_value_range a) as Ha.
  pose proof (Decoder.byte_value_range b) as Hb.
  unfold signed_code. split.
  - intros H.
    destruct (Z.ltb_spec 127 (byte_value a)), (Z.ltb_spec 127 (byte_value b));
      try (left; apply byte_value_inj; lia); lia.
  - intros [-> | [[-> ->] | [-> ->]]]; reflexivity.
Qed.

(** *** [capture_channel] *)

Lemma capture_channel_ok (vdiv_resp ofst_resp : list ascii) (raw : list byte)
    (vdiv ofst : float) (payload : list byte) :
  parse_value vdiv_resp = Ok vdiv ->
  parse_value ofst_resp = Ok ofst ->
  extract_block raw = Ok payload ->
  capture_channel vdiv_resp ofst_resp raw
  = Ok (map (fun b => sample_voltage vdiv ofst (byte_value b)) payload,
        {| info_vdiv := vdiv; info_ofst := ofst;
           info_num_points := Z.of_nat (length payload) |}).
Proof.
  intros Hv Ho Hx. unfold capture_channel. rewrite Hv, Ho, Hx. simpl.
  rewrite Decoder.decode_waveform_map, length_map. reflexivity.
Qed.

(** X5: on a well-formed response, with a prefix that holds no marker,
    nine digits that give the payload length, the payload and a
    trailer, [capture_channel] returns one voltage per payload byte,
    computed with the parsed scale and offset as
    (code / 25.0) * vdiv - ofst, where the code of a byte b is b up to
    127 and b - 255 above, and reports the payload length as
    [num_points]; prefix and trailer leave no trace. *)
Theorem capture_channel_framed (vdiv_resp ofst_resp : list ascii)
    (vdiv ofst : float) (prefix digits payload trailer : list byte) :
  parse_value vdiv_resp = Ok vdiv ->
  parse_value ofst_resp = Ok ofst ->
  (forall j : nat,
      (j < length prefix)%nat ->
      marker_at (prefix ++ block_marker ++ digits ++ payload ++ trailer) j
      = false) ->
  length digits = 9%nat ->
  forallb is_digit_byte digits = true ->
  bytes_decimal digits = Z.of_nat (length payload) ->
  capture_channel vdiv_resp ofst_resp
    (prefix ++ block_marker ++ digits ++ payload ++ trailer)
  = Ok (map (fun b =>
               (float_of_int (if byte_value b <=? 127
                              then byte_value b
                              else byte_value b - 255)%Z
                / 25 * vdiv - ofst)%float)
            payload,
        {| info_vdiv := vdiv; info_ofst := ofst;
           info_num_points := Z.of_nat (length payload) |}).
Proof.
  intros Hv Ho Hbefore Hlen Hdigits Hvalue.
  rewrite (capture_channel_ok vdiv_resp ofst_resp _ vdiv ofst payload Hv Ho)
    by now apply Framing.extract_framed.
  do 2 f_equal. apply map_ext. intros b. unfold sample_voltage.
  now rewrite Decoder.signed_code_explicit.
Qed.

Lemma capture_channel_framed_witness :
  capture_channel (str_of "C1:VDIV 2.00E+00V") (str_of "C1:OFST 5.00E-01V")
    (bytes_of "C1:WF ALL," ++ block_marker ++ bytes_of "000000002"
     ++ ["}"; "200"]%byte ++ bytes_of "xx")
  = Ok ([9.5; -4.9]%float,
        {| info_vdiv := 2%float; info_ofst := 0.5%float;
           info_num_points := 2 |}).
Proof.
  rewrite (capture_channel_framed (str_of "C1:VDIV 2.00E+00V")
             (str_of "C1:OFST 5.00E-01V") 2%float 0.5%float
             (bytes_of "C1:WF ALL,") (bytes_of "000000002")
             ["}"; "200"]%byte (bytes_of "xx"));
    [vm_compute; reflexivity | vm_compute; reflexivity
    | vm_compute; reflexivity | | reflexivity | reflexivity | reflexivity].
  intros j Hj.
  do 10 (destruct j as [| j]; [reflexivity |]). simpl in Hj. lia.
Defined.

Lemma capture_channel_error (vdiv_resp ofst_resp : list ascii)
    (raw : list byte) (e : exn) :
  capture_channel vdiv_resp ofst_resp raw = Raise e -> e = ValueError.
Proof.
  unfold capture_channel.
  destruct (parse_value vdiv_resp) as [vdiv | e1] eqn:Hv; simpl;
    [| intros He; injection He as <-;
       exact (Values.parse_value_error vdiv_resp e1 Hv)].
  destruct (parse_value ofst_resp) as [ofst | e2] eqn:Ho; simpl;
    [| intros He; injection He as <-;
       exact (Values.parse_value_error ofst_resp e2 Ho)].
  destruct (extract_block raw) as [payload | e3] eqn:Hx; simpl;
    [discriminate |].
  intros He. injection He as <-.
  exact (Framing.extract_block_error raw e3 Hx).
Qed.

(** X6: whatever fails in [capture_channel], a response that does not
    parse or a block that cannot be extracted, the exception is a
    [ValueError]; and it fails exactly when one of the three stages
    does. *)
Theorem capture_channel_failure (vdiv_resp ofst_resp : list ascii)
    (raw : list byte) :
  (forall e : exn,
      capture_channel vdiv_resp ofst_resp raw = Raise e -> e = ValueError)
  /\ ((exists e, capture_channel vdiv_resp ofst_resp raw = Raise e)
      <-> (exists e, parse_value vdiv_resp = Raise e)
          \/ (exists e, parse_value ofst_resp = Raise e)
          \/ (exists e, extract_block raw = Raise e)).
Proof.
  unfold capture_channel.
  destruct (parse_value vdiv_resp) as [vdiv | e1] eqn:Hv; simpl.
  - destruct (parse_value ofst_resp) as [ofst | e2] eqn:Ho; simpl.
    + destruct (extract_block raw) as [payload | e3] eqn:Hx; simpl.
      * split; [discriminate |]. split.
        -- intros [e He]. discriminate He.
        -- intros [[e He] | [[e He] | [e He]]]; discriminate He.
      * split.
        -- intros e He. injection He as <-.
           exact (Framing.extract_block_error raw e3 Hx).
        -- split; [intros _; right; right; now exists e3 | now exists e3].
    + split.
      * intros e He. injection He as <-.
        exact (Values.parse_value_error ofst_resp e2 Ho).
      * split; [intros _; right; left; now exists e2 | now exists e2].
  - split.
    + intros e He. injection He as <-.
      exact (Values.parse_value_error vdiv_resp e1 Hv).
    + split; [intros _; left; now exists e1 | now exists e1].
Qed.

End Channel.

Module Pipeline.

(** *** The longest channel *)

Lemma foldr_max_ge (l : list (Z * list float)) (ch : Z) (v : list float) :
  In (ch, v) l ->
  Z.of_nat (length v)
  <= foldr (fun kv acc => Z.max (Z.of_nat (length (snd kv))) acc) 0 l.
Proof.
  induction l as [| [k w] l IH]; intros Hin; [destruct Hin |].
  simpl. destruct Hin as [Heq | Hin].
  - injection Heq as -> ->. lia.
  - specialize (IH Hin). lia.
Qed.

Lemma foldr_max_attained (l : list (Z * list float)) :
  l <> [] ->
  exists (ch : Z) (v : list float),
    In (ch, v) l
    /\ foldr (fun kv acc => Z.max (Z.of_nat (length (snd kv))) acc) 0 l
       = Z.of_nat (length v).
Proof.
  induction l as [| [k w] l IH]; intros Hne; [congruence |].
  destruct l as [| kv l].
  - exists k, w. split; [now left | simpl; lia].
  - destruct IH as (ch & v & Hin & Hmax); [discriminate |].
    remember (kv :: l) as l' eqn:Hl'. simpl. rewrite Hmax.
    destruct (Z.le_gt_cases (Z.of_nat (length w)) (Z.of_nat (length v))).
    + exists ch, v. split; [now right | lia].
    + exists k, w. split; [now left | lia].
Qed.

Lemma max_len_foldr (channel_data : gmap Z (list float)) :
  max_len channel_data
  = foldr (fun kv acc => Z.max (Z.of_nat (length (snd kv))) acc) 0
          (map_to_list channel_data).
Proof.
  unfold max_len. rewrite map_fold_foldr.
  induction (map_to_list channel_data) as [| [k w] l IH]; [reflexivity |].
  simpl. now rewrite IH.
Qed.

Lemma max_len_ge (channel_data : gmap Z (list float)) (ch : Z)
    (v : list float) :
  channel_data !! ch = Some v ->
  Z.of_nat (length v) <= max_len channel_data.
Proof.
  intros Hch. rewrite max_len_foldr. apply (foldr_max_ge _ ch).
  apply list_elem_of_In, elem_of_map_to_list, Hch.
Qed.

Lemma max_len_attained (channel_data : gmap Z (list float)) :
  channel_data <> ∅ ->
  exists (ch : Z) (v : list float),
    channel_data !! ch = Some v
    /\ max_len channel_data = Z.of_nat (length v).
Proof.
  intros Hne. rewrite max_len_foldr.
  destruct (foldr_max_attained (map_to_list channel_data))
    as (ch & v & Hin & Hmax).
  - intros Hnil. apply map_to_list_empty_iff in Hnil. contradiction.
  - exists ch, v. split; [| exact Hmax].
    apply elem_of_map_to_list, list_elem_of_In, Hin.
Qed.

Lemma time_axis_length (num_points : Z) (sara : float) (times : list float) :
  time_axis num_points sara = Ok times ->
  length times = Z.to_nat num_points.
Proof.
  unfold time_axis, truediv.
  destruct (is_zero sara); simpl; [discriminate |].
  intros Ht. injection Ht as <-.
  now rewrite length_map, TimeAxis.range_length.
Qed.

Lemma fmap_py_stride_one (F : Type) (channel_data : gmap Z (list F)) :
  py_stride 1 <$> channel_data = channel_data.
Proof.
  apply map_eq. intros ch. rewrite lookup_fmap.
  destruct (channel_data !! ch); simpl;
    [now rewrite Decimator.py_stride_one | reflexivity].
Qed.

(** What is left by the decimation step, whether it cuts or not. *)
Lemma decimate_cases (F : Type) (maxpoints : option Z) (num_points : Z)
    (times : list F) (channel_data : gmap Z (list F)) :
  exists skip : Z,
    1 <= skip
    /\ decimate maxpoints num_points times channel_data
       = (py_stride skip times, py_stride skip <$> channel_data).
Proof.
  unfold decimate. destruct maxpoints as [m |].
  - destruct (must_decimate (Some m) num_points).
    + exists (stride_of num_points m).
      split; [apply Decimator.stride_of_ge_1 | reflexivity].
    + exists 1. split; [lia |].
      now rewrite Decimator.py_stride_one, fmap_py_stride_one.
  - exists 1. split; [lia |].
    now rewrite Decimator.py_stride_one, fmap_py_stride_one.
Qed.

Lemma capture_result_shape (maxpoints : option Z) (sara : float)
    (channel_data out : gmap Z (list float)) (times : list float) :
  capture_result maxpoints sara channel_data = Ok (times, out) ->
  (forall ch : Z, is_Some (out !! ch) <-> is_Some (channel_data !! ch))
  /\ (forall (ch : Z) (v : list float),
        out !! ch = Some v -> (length v <= length times)%nat)
  /\ (exists (ch : Z) (v : list float),
        out !! ch = Some v /\ length v = length times).
Proof.
  unfold capture_result.
  case_bool_decide as Hne; [discriminate |].
  destruct (time_axis (max_len channel_data) sara) as [axis | e] eqn:Haxis;
    simpl; [| discriminate].
  apply time_axis_length in Haxis.
  destruct (decimate_cases float maxpoints (max_len channel_data) axis
              channel_data) as (skip & Hskip & ->).
  intros Hout. injection Hout as <- <-.
  split; [| split].
  - intros ch. rewrite lookup_fmap. now rewrite fmap_is_Some.
  - intros ch v. rewrite lookup_fmap.
    destruct (channel_data !! ch) as [w |] eqn:Hch; simpl; [| discriminate].
    intros Hv. injection Hv as <-.
    apply Decimator.py_stride_length_le; [exact Hskip |].
    pose proof (max_len_ge channel_data ch w Hch). lia.
  - destruct (max_len_attained channel_data Hne) as (ch & w & Hch & Hmax).
    exists ch, (py_stride skip w). split.
    + now rewrite lookup_fmap, Hch.
    + apply Decimator.py_stride_length_eq; [exact Hskip | lia].
Qed.

(** X9: in the data that [main] hands to [save_csv] the channels are
    those captured, no channel is longer than the time axis, and the
    longest is exactly as long: the rows of the file, one per
    timestamp, reach every sample that was kept. *)
Theorem axis_covers_channels (maxpoints : option Z) (sara : float)
    (channel_data out : gmap Z (list float)) (times : list float) :
  capture_result maxpoints sara channel_data = Ok (times, out) ->
  (forall ch : Z, is_Some (out !! ch) <-> is_Some (channel_data !! ch))
  /\ (forall (ch : Z) (v : list float),
        out !! ch = Some v -> (length v <= length times)%nat)
  /\ (exists (ch : Z) (v : list float),
        out !! ch = Some v /\ length v = length times).
Proof. apply capture_result_shape. Qed.

Lemma axis_covers_channels_witness :
  exists (times : list float) (out : gmap Z (list float)),
    capture_result (Some 2) 1%float
      (<[1 := [10; 11; 12; 13]%float]> {[2 := [20; 21]%float]})
    = Ok (times, out)
    /\ (forall (ch : Z) (v : list float),
          out !! ch = Some v -> (length v <= length times)%nat).
Proof.
  eexists. eexists. split; [vm_compute; reflexivity |].
  eapply (axis_covers_channels (Some 2) 1%float
            (<[1 := [10; 11; 12; 13]%float]> {[2 := [20; 21]%float]})).
  vm_compute. reflexivity.
Defined.

(** *** The size of a decimated capture *)

Lemma stride_size (F : Type) (m n : Z) (l : list F) :
  0 < m < n ->
  Z.of_nat (length l) = n ->
  m <= Z.of_nat (length (py_stride (stride_of n m) l)) < 2 * m
  /\ (n mod m = 0 ->
      Z.of_nat (length (py_stride (stride_of n m) l)) = m).
Proof.
  intros Hmn Hlen.
  assert (Hq : 1 <= n / m) by (apply Z.div_le_lower_bound; lia).
  assert (Hskip : stride_of n m = n / m).
  { unfold stride_of. cbv zeta. destruct (Z.ltb_spec (n / m) 1); lia. }
  rewrite Hskip. set (skip := n / m) in *.
  assert (Hlo : skip * m <= n)
    by (subst skip; rewrite Z.mul_comm; apply Z.mul_div_le; lia).
  assert (Hhi : n < (skip + 1) * m).
  { subst skip. pose proof (Z.mul_succ_div_gt n m ltac:(lia)). lia. }
  set (L := length (py_stride skip l)).
  pose proof (Decimator.py_stride_index skip Hq l L) as Hend.
  assert (Hfull : n <= Z.of_nat L * skip).
  { destruct (Z.le_gt_cases n (Z.of_nat L * skip)) as [H | H]; [exact H |].
    exfalso. assert (HL : (L * Z.to_nat skip < length l)%nat) by nia.
    apply Hend in HL. subst L. lia. }
  assert (HLpos : (0 < L)%nat) by nia.
  assert (Hprev : (Z.of_nat L - 1) * skip < n).
  { pose proof (Decimator.py_stride_index skip Hq l (L - 1)) as Hp.
    assert (HL1 : (L - 1 < length (py_stride skip l))%nat) by (subst L; lia).
    apply Hp in HL1. nia. }
  split; [split |].
  - nia.
  - destruct (Z.eq_dec skip 1) as [H1 | H1]; [nia |].
    destruct (Z.eq_dec m 1) as [Hm1 | Hm1]; [nia |].
    assert (1 <= (m - 1) * (skip - 1)) by nia. nia.
  - intros Hmod.
    assert (Hexact : n = skip * m).
    { subst skip. rewrite Z.mul_comm. apply Z.div_exact; lia. }
    nia.
Qed.

(** X10: when [maxpoints] is M > 0 and the capture has more than M
    points, the decimated axis holds at least M and fewer than 2*M
    points, and exactly M when M divides the point count. *)
Theorem decimated_size (m num_points : Z) (times : list float)
    (channel_data : gmap Z (list float)) :
  0 < m < num_points ->
  Z.of_nat (length times) = num_points ->
  m <= Z.of_nat (length (fst (decimate (Some m) num_points times
                                        channel_data))) < 2 * m
  /\ (num_points mod m = 0 ->
      Z.of_nat (length (fst (decimate (Some m) num_points times
                                      channel_data))) = m).
Proof.
  intros Hm Hlen.
  assert (Hdec : must_decimate (Some m) num_points = true).
  { unfold must_decimate. destruct (Z.eqb_spec m 0); [lia |].
    destruct (Z.ltb_spec m num_points); [reflexivity | lia]. }
  unfold decimate. rewrite Hdec. simpl.
  now apply stride_size.
Qed.

Lemma decimated_size_witness :
  Z.of_nat (length (fst (decimate (Some 100) 1000
                           (map float_of_int (range 1000)) ∅))) = 100.
Proof.
  destruct (decimated_size 100 1000 (map float_of_int (range 1000)) ∅)
    as [_ Hexact]; [lia | reflexivity |].
  apply Hexact. reflexivity.
Defined.

(** X11: without [--maxpoints], with a budget that is zero or negative,
    or with no more points than the budget, the decimation step leaves
    the axis and the channels as they are. *)
Theorem decimate_pass_through (maxpoints : option Z) (num_points : Z)
    (times : list float) (channel_data : gmap Z (list float)) :
  0 <= num_points ->
  match maxpoints with
  | Some m => m <= 0 \/ num_points <= m
  | None => True
  end ->
  decimate maxpoints num_points times channel_data = (times, channel_data).
Proof.
  intros Hn Hpass. unfold decimate, must_decimate.
  destruct maxpoints as [m |]; [| reflexivity].
  destruct (Z.eqb_spec m 0) as [-> | Hm0]; [reflexivity |].
  destruct (Z.ltb_spec m num_points) as [Hlt | Hge]; [| reflexivity].
  simpl. assert (Hneg : m < 0) by lia.
  assert (Hskip : stride_of num_points m = 1).
  { unfold stride_of. cbv zeta.
    pose proof (Z.div_mod num_points m ltac:(lia)) as Hdiv.
    pose proof (Z.mod_neg_bound num_points m Hneg) as Hmod.
    assert (num_points / m <= 0) by nia.
    destruct (Z.ltb_spec (num_points / m) 1); lia. }
  now rewrite Hskip, Decimator.py_stride_one, fmap_py_stride_one.
Qed.

Lemma decimate_pass_through_witness :
  decimate (Some (-5)) 3 [1; 2; 3]%float {[1 := [7; 8; 9]%float]}
  = ([1; 2; 3]%float, {[1 := [7; 8; 9]%float]}).
Proof.
  apply (decimate_pass_through (Some (-5)) 3); [lia | left; lia].
Defined.

Lemma stride_from_combine (A B : Type) (skip : nat) (a : list A) :
  forall (b : list B) (wait : nat),
    stride_from skip wait (combine a b)
    = combine (stride_from skip wait a) (stride_from skip wait b).
Proof.
  induction a as [| x a IH]; intros b wait; [reflexivity |].
  destruct b as [| y b].
  - destruct wait; simpl; rewrite ?combine_nil; reflexivity.
  - simpl. destruct wait as [| w]; simpl; now rewrite IH.
Qed.

(** X12: decimation keeps timestamps and samples paired: the
    (time, voltage) rows of a channel after the cut are the rows before
    it taken with the stride, so no sample changes its timestamp. *)
Theorem decimated_rows (m num_points : Z) (times : list float)
    (channel_data : gmap Z (list float)) (ch : Z) (v : list float) :
  must_decimate (Some m) num_points = true ->
  channel_data !! ch = Some v ->
  exists v' : list float,
    snd (decimate (Some m) num_points times channel_data) !! ch = Some v'
    /\ combine (fst (decimate (Some m) num_points times channel_data)) v'
       = py_stride (stride_of num_points m) (combine times v).
Proof.
  intros Hdec Hch. unfold decimate. rewrite Hdec. simpl.
  exists (py_stride (stride_of num_points m) v).
  split; [now rewrite lookup_fmap, Hch |].
  unfold py_stride. now rewrite stride_from_combine.
Qed.

Lemma decimated_rows_witness :
  exists v' : list float,
    snd (decimate (Some 2) 4 [0; 1; 2; 3]%float
           {[1 := [10; 11; 12; 13]%float]}) !! 1 = Some v'
    /\ combine (fst (decimate (Some 2) 4 [0; 1; 2; 3]%float
                       {[1 := [10; 11; 12; 13]%float]})) v'
       = [(0, 10); (2, 12)]%float.
Proof.
  destruct (decimated_rows 2 4 [0; 1; 2; 3]%float
              {[1 := [10; 11; 12; 13]%float]} 1 [10; 11; 12; 13]%float)
    as (v' & Hv & Hrows); [reflexivity | apply lookup_singleton_eq |].
  exists v'. split; [exact Hv | exact Hrows].
Defined.

End Pipeline.

Module Csv.

Section Rows.

Variables fmt_time fmt_volt : float -> list ascii.

(** *** The channel columns *)

Lemma sorted_channels_elem (channel_data : gmap Z (list float)) (ch : Z) :
  ch ∈ sorted_channels channel_data <-> is_Some (channel_data !! ch).
Proof.
  unfold sorted_channels.
  rewrite merge_sort_Permutation, elem_of_elements. apply elem_of_dom.
Qed.

Lemma sorted_channels_length (channel_data : gmap Z (list float)) :
  length (sorted_channels channel_data) = size channel_data.
Proof.
  unfold sorted_channels. rewrite merge_sort_Permutation.
  rewrite <- size_dom. reflexivity.
Qed.

Lemma strictly_sorted (l : list Z) :
  StronglySorted Z.le l -> NoDup l -> StronglySorted Z.lt l.
Proof.
  induction 1 as [| x l Hs IH Hall]; intros Hnd; constructor.
  - apply IH. now apply NoDup_cons_1_2 in Hnd.
  - apply NoDup_cons_1_1 in Hnd.
    rewrite Forall_forall in Hall |- *. intros y Hy.
    specialize (Hall y Hy).
    assert (x <> y) by (intros ->; contradiction). lia.
Qed.

Lemma sorted_channels_increasing (channel_data : gmap Z (list float)) :
  StronglySorted Z.lt (sorted_channels channel_data).
Proof.
  apply strictly_sorted.
  - apply StronglySorted_merge_sort; apply _.
  - unfold sorted_channels. rewrite merge_sort_Permutation.
    apply NoDup_elements.
Qed.

(** *** The rows *)

Lemma csv_data_row (times : list float)
    (channel_data : gmap Z (list float)) (i : nat) (t : float) :
  times !! i = Some t ->
  csv_rows fmt_time fmt_volt times channel_data !! S i
  = Some (fmt_time t
          :: map (csv_cell fmt_volt channel_data i)
                 (sorted_channels channel_data)).
Proof.
  intros Ht. unfold csv_rows. cbv zeta.
  rewrite lookup_cons, list_lookup_imap, Ht. reflexivity.
Qed.

Lemma csv_cell_at (times : list float)
    (channel_data : gmap Z (list float)) (i k : nat) (t : float) (ch : Z) :
  times !! i = Some t ->
  sorted_channels channel_data !! k = Some ch ->
  exists (volts : list float) (row : list (list ascii)),
    channel_data !! ch = Some volts
    /\ csv_rows fmt_time fmt_volt times channel_data !! S i = Some row
    /\ row !! 0%nat = Some (fmt_time t)
    /\ row !! S k = Some (match volts !! i with
                          | Some v => fmt_volt v
                          | None => []
                          end).
Proof.
  intros Ht Hk.
  assert (Hch : is_Some (channel_data !! ch)).
  { apply sorted_channels_elem. apply list_elem_of_lookup. now exists k. }
  destruct Hch as [volts Hvolts].
  exists volts. eexists. split; [exact Hvolts |].
  split; [exact (csv_data_row times channel_data i t Ht) |].
  split; [reflexivity |].
  rewrite lookup_cons.
  change (map (csv_cell fmt_volt channel_data i)
              (sorted_channels channel_data))
    with (csv_cell fmt_volt channel_data i <$> sorted_channels channel_data).
  rewrite list_lookup_fmap, Hk. simpl.
  unfold csv_cell. now rewrite Hvolts.
Qed.

(** X13: the file is rectangular: one header row and one row per
    timestamp, each with one cell for the time and one cell per
    captured channel. *)
Theorem csv_rectangular (times : list float)
    (channel_data : gmap Z (list float)) :
  length (csv_rows fmt_time fmt_volt times channel_data)
  = S (length times)
  /\ Forall (fun row => length row = S (size channel_data))
            (csv_rows fmt_time fmt_volt times channel_data).
Proof.
  unfold csv_rows. cbv zeta. split.
  - simpl. now rewrite length_imap.
  - constructor.
    + unfold csv_header. simpl.
      now rewrite length_map, sorted_channels_length.
    + apply Forall_forall. intros row Hrow.
      apply elem_of_lookup_imap in Hrow as (i & t & -> & _).
      simpl. now rewrite length_map, sorted_channels_length.
Qed.

(** X14: the header row is the time label followed by one label per
    captured channel, in increasing channel number whatever the order
    of capture, each channel once. *)
Theorem csv_header_row (times : list float)
    (channel_data : gmap Z (list float)) :
  csv_rows fmt_time fmt_volt times channel_data !! 0%nat
  = Some (str_of "Time (s)"
          :: map (fun ch => str_of "CH" ++ str_of_int ch ++ str_of " (V)")
                 (sorted_channels channel_data))
  /\ StronglySorted Z.lt (sorted_channels channel_data)
  /\ (forall ch : Z,
        ch ∈ sorted_channels channel_data
        <-> is_Some (channel_data !! ch)).
Proof.
  split; [reflexivity |].
  split; [apply sorted_channels_increasing |].
  intros ch. apply sorted_channels_elem.
Qed.

(** X15: in the row of timestamp [i] the first cell is the formatted
    time and the cell of a channel is its formatted sample [i], or the
    empty string when the channel has no sample [i]; the lookup of a
    channel column in the dict never fails. *)
Theorem csv_cell_content (times : list float)
    (channel_data : gmap Z (list float)) (i k : nat) (t : float) (ch : Z) :
  times !! i = Some t ->
  sorted_channels channel_data !! k = Some ch ->
  exists (volts : list float) (row : list (list ascii)),
    channel_data !! ch = Some volts
    /\ csv_rows fmt_time fmt_volt times channel_data !! S i = Some row
    /\ row !! 0%nat = Some (fmt_time t)
    /\ row !! S k = Some (match volts !! i with
                          | Some v => fmt_volt v
                          | None => []
                          end).
Proof. apply csv_cell_at. Qed.

(** X16: every sample that [main] keeps is written: for the data
    produced by lines 296-313, sample [i] of a channel is found,
    formatted, in row [i] of the file, in the column of its channel. *)
Theorem every_sample_written (maxpoints : option Z) (sara : float)
    (channel_data out : gmap Z (list float)) (times volts : list float)
    (ch : Z) (i : nat) (v : float) :
  capture_result maxpoints sara channel_data = Ok (times, out) ->
  out !! ch = Some volts ->
  volts !! i = Some v ->
  exists (k : nat) (row : list (list ascii)),
    sorted_channels out !! k = Some ch
    /\ csv_rows fmt_time fmt_volt times out !! S i = Some row
    /\ row !! S k = Some (fmt_volt v).
Proof.
  intros Hres Hch Hv.
  destruct (Pipeline.capture_result_shape _ _ _ _ _ Hres) as (_ & Hle & _).
  specialize (Hle ch volts Hch).
  assert (Hi : (i < length volts)%nat) by (apply lookup_lt_is_Some; eauto).
  destruct (lookup_lt_is_Some_2 times i ltac:(lia)) as [t Ht].
  assert (Hin : ch ∈ sorted_channels out)
    by (apply sorted_channels_elem; eauto).
  apply list_elem_of_lookup in Hin as [k Hk].
  destruct (csv_cell_at times out i k t ch Ht Hk)
    as (volts' & row & Hvolts' & Hrow & _ & Hcell).
  exists k, row. split; [exact Hk |]. split; [exact Hrow |].
  rewrite Hch in Hvolts'. injection Hvolts' as <-.
  now rewrite Hv in Hcell.
Qed.

End Rows.

Lemma csv_cell_content_witness :
  exists (volts : list float) (row : list (list ascii)),
    (<[3 := [1; 2]%float]> {[1 := [5]%float]} : gmap Z (list float)) !! 1
    = Some volts
    /\ csv_rows (fun _ => str_of "t") (fun _ => str_of "v") [0; 1]%float
         (<[3 := [1; 2]%float]> {[1 := [5]%float]}) !! 2%nat
       = Some row
    /\ row = [str_of "t"; []; str_of "v"].
Proof.
  destruct (csv_cell_content (fun _ => str_of "t") (fun _ => str_of "v")
              [0; 1]%float (<[3 := [1; 2]%float]> {[1 := [5]%float]})
              1 0 1%float 1)
    as (volts & row & Hvolts & Hrow & _); [reflexivity | reflexivity |].
  exists volts, row. split; [exact Hvolts |]. split; [exact Hrow |].
  rewrite csv_data_row with (t := 1%float) in Hrow by reflexivity.
  injection Hrow as <-. reflexivity.
Defined.

Lemma every_sample_written_witness :
  exists (k : nat) (row : list (list ascii)),
    sorted_channels {[1 := [7; 8]%float]} !! k = Some 1
    /\ csv_rows (fun _ => str_of "t") (fun _ => str_of "v")
         [-1; 0]%float {[1 := [7; 8]%float]} !! 2%nat
       = Some row
    /\ row !! S k = Some (str_of "v").
Proof.
  apply (every_sample_written (fun _ => str_of "t") (fun _ => str_of "v")
           None 1%float {[1 := [7; 8]%float]} {[1 := [7; 8]%float]}
           [-1; 0]%float [7; 8]%float 1 1 8%float);
    [vm_compute; reflexivity | apply lookup_singleton_eq | reflexivity].
Defined.

End Csv.

Module Loop.

(** *** The capture loop *)

Lemma capture_loop_spec (outcomes : list (Z * result (list float))) :
  Forall (fun o => snd o <> Raise SystemExit) outcomes ->
  forall init : gmap Z (list float),
  exists channel_data : gmap Z (list float),
    capture_loop outcomes init = Ok channel_data
    /\ (forall (ch : Z) (v : list float),
          channel_data !! ch = Some v ->
          In (ch, Ok v) outcomes \/ init !! ch = Some v)
    /\ (forall ch : Z,
          is_Some (init !! ch) \/ (exists v, In (ch, Ok v) outcomes) ->
          is_Some (channel_data !! ch)).
Proof.
  induction outcomes as [| [c r] outcomes IH]; intros Hall init.
  - exists init. split; [reflexivity |]. split; [auto |].
    intros ch [Hinit | [v []]]. exact Hinit.
  - apply Forall_cons in Hall as [Hr Hall]. simpl in Hr.
    destruct r as [w | e].
    + destruct (IH Hall (<[c := w]> init)) as (cd & Hloop & Hfrom & Hkept).
      exists cd. split; [exact Hloop |]. split.
      * intros ch v Hv. destruct (Hfrom ch v Hv) as [Hin | Hins].
        -- left. now right.
        -- destruct (decide (c = ch)) as [-> | Hne].
           ++ rewrite lookup_insert_eq in Hins. injection Hins as ->.
              left. now left.
           ++ rewrite lookup_insert_ne in Hins by exact Hne. now right.
      * intros ch Hch. apply Hkept.
        destruct (decide (c = ch)) as [-> | Hne].
        -- left. rewrite lookup_insert_eq. eauto.
        -- destruct Hch as [Hinit | [v [Heq | Hin]]].
           ++ left. now rewrite lookup_insert_ne.
           ++ congruence.
           ++ right. now exists v.
    + assert (Hskip : capture_loop ((c, Raise e) :: outcomes) init
                      = capture_loop outcomes init)
        by (destruct e; [reflexivity | reflexivity | congruence]).
      destruct (IH Hall init) as (cd & Hloop & Hfrom & Hkept).
      exists cd. rewrite Hskip. split; [exact Hloop |]. split.
      * intros ch v Hv. destruct (Hfrom ch v Hv) as [Hin | Hinit];
          [left; now right | now right].
      * intros ch [Hinit | [v [Heq | Hin]]]; apply Hkept;
          [now left | congruence | right; now exists v].
Qed.

Lemma capture_loop_all_fail (outcomes : list (Z * result (list float))) :
  Forall (fun o => exists e, snd o = Raise e /\ e <> SystemExit) outcomes ->
  forall init : gmap Z (list float), capture_loop outcomes init = Ok init.
Proof.
  induction 1 as [| [c r] outcomes (e & Hr & He) _ IH]; intros init;
    [reflexivity |].
  simpl in Hr. subst r.
  destruct e; [apply IH | apply IH | congruence].
Qed.

(** The outcomes that [main] gets from [capture_channel]. *)
Lemma channel_outcome (c : Z * (list ascii * list ascii * list byte)) :
  (r ← capture_channel (fst (fst (snd c))) (snd (fst (snd c))) (snd (snd c));
   Ok (fst r)) <> Raise SystemExit.
Proof.
  destruct (capture_channel _ _ _) as [r | e] eqn:Hc; simpl;
    [discriminate |].
  rewrite (Channel.capture_channel_error _ _ _ e Hc). discriminate.
Qed.

(** X17: the capture loop keeps every channel whose capture succeeded,
    whatever failed before or after it, and stores nothing else: a
    channel of the result comes from a successful capture of that
    channel. *)
Theorem failures_are_skipped (outcomes : list (Z * result (list float))) :
  Forall (fun o => snd o <> Raise SystemExit) outcomes ->
  exists channel_data : gmap Z (list float),
    capture_loop outcomes ∅ = Ok channel_data
    /\ (forall (ch : Z) (v : list float),
          channel_data !! ch = Some v -> In (ch, Ok v) outcomes)
    /\ (forall (ch : Z) (v : list float),
          In (ch, Ok v) outcomes -> is_Some (channel_data !! ch)).
Proof.
  intros Hall.
  destruct (capture_loop_spec outcomes Hall ∅) as (cd & Hloop & Hfrom & Hkept).
  exists cd. split; [exact Hloop |]. split.
  - intros ch v Hv. destruct (Hfrom ch v Hv) as [Hin | Hinit];
      [exact Hin | now rewrite lookup_empty in Hinit].
  - intros ch v Hin. apply Hkept. right. now exists v.
Qed.

Lemma failures_are_skipped_witness :
  exists channel_data : gmap Z (list float),
    capture_loop [(1, Raise ValueError); (2, Ok [5]%float);
                  (3, Raise ValueError)] ∅ = Ok channel_data
    /\ is_Some (channel_data !! 2).
Proof.
  destruct (failures_are_skipped
              [(1, Raise ValueError); (2, Ok [5]%float);
               (3, Raise ValueError)])
    as (cd & Hloop & _ & Hkept).
  - repeat constructor; discriminate.
  - exists cd. split; [exact Hloop |].
    apply (Hkept 2 [5]%float). simpl. tauto.
Defined.

(** X18: when the time-base responses parse and every
    [capture_channel] call fails, [main] has nothing to export and
    exits: the result is [SystemExit], whatever [--maxpoints] is. *)
Theorem nothing_captured (maxpoints : option Z)
    (tdiv_resp sara_resp : list ascii) (tdiv sara : float)
    (captures : list (Z * (list ascii * list ascii * list byte))) :
  parse_value tdiv_resp = Ok tdiv ->
  parse_value sara_resp = Ok sara ->
  Forall (fun c =>
            exists e,
              capture_channel (fst (fst (snd c))) (snd (fst (snd c)))
                              (snd (snd c)) = Raise e)
         captures ->
  main_data maxpoints tdiv_resp sara_resp captures = Raise SystemExit.
Proof.
  intros Ht Hs Hfail. unfold main_data. rewrite Ht, Hs. simpl.
  rewrite capture_loop_all_fail; [reflexivity |].
  apply Forall_map. eapply Forall_impl; [exact Hfail |].
  intros c [e He]. exists e. simpl. rewrite He. simpl.
  split; [reflexivity |].
  rewrite (Channel.capture_channel_error _ _ _ e He). discriminate.
Qed.

Lemma nothing_captured_witness :
  main_data (Some 100) (str_of "TDIV 1.00E-03s") (str_of "SARA 500MSa/s")
    [(1, (str_of "C1:VDIV 2.00E-01V", str_of "C1:OFST 0V", bytes_of "junk"))]
  = Raise SystemExit.
Proof.
  apply (nothing_captured (Some 100) (str_of "TDIV 1.00E-03s")
           (str_of "SARA 500MSa/s") 0.001%float 500000000%float);
    [vm_compute; reflexivity | vm_compute; reflexivity |].
  repeat constructor. exists ValueError. vm_compute. reflexivity.
Defined.

(** X19: one good channel is enough: when the time-base responses
    parse, the sample rate is not zero and at least one
    [capture_channel] call succeeds, [main] produces data, and every
    channel whose capture succeeded is in it. *)
Theorem one_channel_suffices (maxpoints : option Z)
    (tdiv_resp sara_resp : list ascii) (tdiv sara : float)
    (captures : list (Z * (list ascii * list ascii * list byte)))
    (ch : Z) (vdiv_resp ofst_resp : list ascii) (raw : list byte)
    (r : list float * channel_info) :
  parse_value tdiv_resp = Ok tdiv ->
  parse_value sara_resp = Ok sara ->
  (sara =? 0)%float = false ->
  In (ch, (vdiv_resp, ofst_resp, raw)) captures ->
  capture_channel vdiv_resp ofst_resp raw = Ok r ->
  exists (times : list float) (out : gmap Z (list float)),
    main_data maxpoints tdiv_resp sara_resp captures = Ok (times, out)
    /\ is_Some (out !! ch).
Proof.
  intros Ht Hs Hrate Hin Hcap. unfold main_data. rewrite Ht, Hs. simpl.
  set (outcomes := map _ captures).
  assert (Hall : Forall (fun o => snd o <> Raise SystemExit) outcomes).
  { apply Forall_map, Forall_forall. intros c _. apply channel_outcome. }
  destruct (capture_loop_spec outcomes Hall ∅) as (cd & Hloop & _ & Hkept).
  rewrite Hloop. simpl.
  assert (Hch : is_Some (cd !! ch)).
  { apply Hkept. right. exists (fst r). subst outcomes.
    apply in_map_iff. exists (ch, (vdiv_resp, ofst_resp, raw)).
    split; [| exact Hin]. simpl. now rewrite Hcap. }
  assert (Hne : cd <> ∅).
  { intros ->. rewrite lookup_empty in Hch. now destruct Hch. }
  unfold capture_result. rewrite bool_decide_eq_false_2 by exact Hne.
  rewrite (@TimeAxis.time_axis_nonzero float binary64 _ sara Hrate). simpl.
  match goal with
  | |- context [decimate _ _ ?ts _] =>
      destruct (Pipeline.decimate_cases float maxpoints (max_len cd) ts cd)
        as (skip & _ & ->)
  end.
  eexists. eexists. split; [reflexivity |].
  rewrite lookup_fmap. now apply fmap_is_Some.
Qed.

Lemma one_channel_suffices_witness :
  exists (times : list float) (out : gmap Z (list float)),
    main_data None (str_of "TDIV 1.00E-03s") (str_of "SARA 500MSa/s")
      [(1, (str_of "C1:VDIV 2.00E-01V", str_of "C1:OFST 0V",
            bytes_of "junk"));
       (2, (str_of "C2:VDIV 2.00E-01V", str_of "C2:OFST 0V",
            bytes_of "C2:WF ALL,#9000000002}}"))]
    = Ok (times, out)
    /\ is_Some (out !! 2).
Proof.
  eapply (one_channel_suffices None (str_of "TDIV 1.00E-03s")
            (str_of "SARA 500MSa/s") 0.001%float 500000000%float _ 2
            (str_of "C2:VDIV 2.00E-01V") (str_of "C2:OFST 0V")
            (bytes_of "C2:WF ALL,#9000000002}}"));
    [vm_compute; reflexivity | vm_compute; reflexivity | reflexivity
    | simpl; tauto | vm_compute; reflexivity].
Defined.

End Loop.

Module Session.

(** *** [get_active_channels] *)

Lemma get_active_channels_filter (tra : Z -> option (list ascii)) :
  get_active_channels tra
  = List.filter
      (fun ch => match tra ch with
                 | Some resp => shows_on resp
                 | None => false
                 end)
      [1; 2; 3; 4].
Proof.
  unfold get_active_channels. simpl.
  destruct (tra 1) as [r1 |]; [destruct (shows_on r1) |];
    (destruct (tra 2) as [r2 |]; [destruct (shows_on r2) |]);
    (destruct (tra 3) as [r3 |]; [destruct (shows_on r3) |]);
    (destruct (tra 4) as [r4 |]; [destruct (shows_on r4) |]);
    reflexivity.
Qed.

Lemma filter_increasing (f : Z -> bool) (l : list Z) :
  StronglySorted Z.lt l -> StronglySorted Z.lt (List.filter f l).
Proof.
  induction 1 as [| x l Hs IH Hall]; simpl; [constructor |].
  destruct (f x); [| exact IH]. constructor; [exact IH |].
  rewrite List.Forall_forall in Hall |- *. intros y Hy.
  apply filter_In in Hy as [Hy _]. exact (Hall y Hy).
Qed.

(** X20: the active channels are those of 1 to 4 whose [TRA?] query
    answers with [ON] in any letter case, in increasing order; a query
    that raises only leaves its channel out.  Without [--channels],
    [main] falls back on channel 1 when none is active, so the channel
    list is never empty. *)
Theorem active_channels (tra : Z -> option (list ascii)) :
  (forall ch : Z,
      In ch (get_active_channels tra)
      <-> 1 <= ch <= 4
          /\ exists resp, tra ch = Some resp /\ shows_on resp = true)
  /\ StronglySorted Z.lt (get_active_channels tra)
  /\ default_channels tra <> []
  /\ (get_active_channels tra = [] -> default_channels tra = [1])
  /\ (get_active_channels tra <> [] ->
      default_channels tra = get_active_channels tra).
Proof.
  split; [| split; [| split; [| split]]].
  - intros ch. rewrite get_active_channels_filter, filter_In. split.
    + intros [Hin Hon]. split; [simpl in Hin; lia |].
      destruct (tra ch) as [resp |]; [now exists resp | discriminate].
    + intros [Hch (resp & Hresp & Hon)]. split.
      * simpl. lia.
      * now rewrite Hresp.
  - rewrite get_active_channels_filter. apply filter_increasing.
    repeat constructor; lia.
  - unfold default_channels. now destruct (get_active_channels tra).
  - unfold default_channels. now intros ->.
  - unfold default_channels. now destruct (get_active_channels tra).
Qed.

(** *** [connect_scope] *)

Lemma scan_resources_spec
    (resources : list (list ascii * option (list ascii))) :
  forall tried : list (list ascii),
    (exists before r after,
        resources = before ++ r :: after
        /\ Forall (fun x => is_candidate x = false) before
        /\ is_candidate r = true
        /\ scan_resources resources tried
           = (Ok (fst r),
              tried ++ List.filter is_usb (map fst before) ++ [fst r]))
    \/ (Forall (fun x => is_candidate x = false) resources
        /\ scan_resources resources tried
           = (Raise SystemExit,
              tried ++ List.filter is_usb (map fst resources))).
Proof.
  induction resources as [| [res outcome] resources IH]; intros tried.
  - right. split; [constructor |]. simpl. now rewrite app_nil_r.
  - assert (Hstep :
              is_candidate (res, outcome) = false ->
              scan_resources ((res, outcome) :: resources) tried
              = scan_resources resources
                  (tried ++ List.filter is_usb [res])).
    { unfold is_candidate. simpl. destruct (is_usb res); simpl.
      - destruct outcome as [idn |]; [| reflexivity].
        now intros ->.
      - intros _. now rewrite app_nil_r. }
    destruct (is_candidate (res, outcome)) eqn:Hc.
    + left. exists [], (res, outcome), resources.
      split; [reflexivity |]. split; [constructor |].
      split; [exact Hc |].
      unfold is_candidate in Hc. simpl in Hc |- *.
      destruct (is_usb res); [| discriminate Hc].
      destruct outcome as [idn |]; [| discriminate Hc].
      simpl in Hc. now rewrite Hc.
    + rewrite (Hstep eq_refl).
      destruct (IH (tried ++ List.filter is_usb [res]))
        as [(before & r & after & -> & Hbefore & Hr & Hscan)
           | [Hnone Hscan]].
      * left. exists ((res, outcome) :: before), r, after.
        split; [reflexivity |]. split; [now constructor |].
        split; [exact Hr |]. rewrite Hscan. f_equal.
        simpl. destruct (is_usb res); simpl; now rewrite <- !app_assoc.
      * right. split; [now constructor |]. rewrite Hscan. f_equal.
        simpl. destruct (is_usb res); simpl; now rewrite <- !app_assoc.
Qed.

(** X21: auto-detection returns the first resource, in the order of
    the list, that is a USB resource and identifies as Siglent, and
    exits when there is none or the list is empty.  Only USB resources
    are opened, in order, and none after the one that is returned. *)
Theorem first_siglent_usb
    (resources : list (list ascii * option (list ascii))) :
  (exists before r after,
      resources = before ++ r :: after
      /\ Forall (fun x => is_candidate x = false) before
      /\ is_candidate r = true
      /\ connect_scope resources
         = (Ok (fst r), List.filter is_usb (map fst before) ++ [fst r]))
  \/ (Forall (fun x => is_candidate x = false) resources
      /\ connect_scope resources
         = (Raise SystemExit, List.filter is_usb (map fst resources))).
Proof.
  destruct resources as [| x resources].
  - right. split; [constructor | reflexivity].
  - exact (scan_resources_spec (x :: resources) []).
Qed.

Example connect_scope_example :
  connect_scope
    [(str_of "ASRL1::INSTR", Some (str_of "Siglent,serial"));
     (str_of "usb0::0x1234::INSTR", None);
     (str_of "USB0::0xF4EC::INSTR", Some (str_of "Rigol,DS1054"));
     (str_of "USB0::0xF4ED::INSTR",
      Some (str_of "Siglent Technologies,SDS1104X-E "));
     (str_of "USB0::0xF4EE::INSTR", Some (str_of "SIGLENT,SDS1202"))]
  = (Ok (str_of "USB0::0xF4ED::INSTR"),
     [str_of "usb0::0x1234::INSTR"; str_of "USB0::0xF4EC::INSTR";
      str_of "USB0::0xF4ED::INSTR"]).
Proof. vm_compute. reflexivity. Qed.

End Session.


Module Arguments.

Lemma split_on_piece (sep : ascii) (p : list ascii) :
  forallb (fun c => negb (Ascii.eqb c sep)) p = true ->
  forall cur rest : list ascii,
    split_on sep cur (p ++ rest) = split_on sep (rev p ++ cur) rest.
Proof.
  induction p as [| c p IH]; intros Hall cur rest; [reflexivity |].
  simpl in Hall. apply andb_true_iff in Hall as [Hc Hall].
  simpl. destruct (Ascii.eqb c sep); [discriminate Hc |].
  rewrite (IH Hall). now rewrite <- app_assoc.
Qed.

Lemma split_on_join (pieces : list (list ascii)) :
  Forall (fun p => forallb (fun c => negb (Ascii.eqb c ","%char)) p = true)
         pieces ->
  forall p cur : list ascii,
    forallb (fun c => negb (Ascii.eqb c ","%char)) p = true ->
    split_on ","%char cur (p ++ flat_map (fun q => ","%char :: q) pieces)
    = (rev cur ++ p) :: pieces.
Proof.
  induction 1 as [| q pieces Hq _ IH]; intros p cur Hp.
  - simpl. rewrite split_on_piece by exact Hp. simpl.
    now rewrite rev_app_distr, rev_involutive.
  - rewrite split_on_piece by exact Hp. simpl.
    rewrite rev_app_distr, rev_involutive. f_equal.
    exact (IH q [] Hq).
Qed.

Lemma digit_char_facts (c : ascii) :
  is_digit c = true ->
  is_space c = false
  /\ Ascii.eqb c ","%char = false
  /\ is_digit_byte (int_char c) = true
  /\ byte_value (int_char c) = code_point c.
Proof.
  destruct c as [[] [] [] [] [] [] [] []]; intros Hc;
    try (vm_compute in Hc; discriminate Hc); vm_compute; auto.
Qed.

Lemma digits_facts (p : list ascii) :
  forallb is_digit p = true ->
  forallb (fun c => negb (is_space c)) p = true
  /\ forallb (fun c => negb (Ascii.eqb c ","%char)) p = true
  /\ forallb is_digit_byte (map int_char p) = true.
Proof.
  induction p as [| c p IH]; intros Hall; [now repeat split |].
  simpl in Hall. apply andb_true_iff in Hall as [Hc Hall].
  destruct (digit_char_facts c Hc) as (Hs & Hcomma & Hb & _).
  destruct (IH Hall) as (H1 & H2 & H3).
  simpl. now rewrite Hs, Hcomma, Hb, H1, H2, H3.
Qed.

Lemma decimal_of_digits (p : list ascii) :
  forallb is_digit p = true ->
  forall acc : Z,
    fold_left (fun a b => 10 * a + (byte_value b - 48)) (map int_char p) acc
    = fold_left (fun a c => 10 * a + (code_point c - 48)) p acc.
Proof.
  induction p as [| c p IH]; intros Hall acc; [reflexivity |].
  simpl in Hall. apply andb_true_iff in Hall as [Hc Hall].
  destruct (digit_char_facts c Hc) as (_ & _ & _ & Hv).
  simpl. rewrite Hv. apply IH, Hall.
Qed.

(** A piece made of digits, within the digit limit, is read as its
    decimal value. *)
Lemma int_of_digit_piece (p : list ascii) :
  p <> [] ->
  forallb is_digit p = true ->
  (length p <= 4300)%nat ->
  int_of_str (strip p) = Ok (str_decimal p).
Proof.
  intros Hne Hall Hlen. destruct (digits_facts p Hall) as (Hs & _ & Hb).
  rewrite (Values.strip_token p Hs). unfold int_of_str. cbv zeta.
  rewrite Extractor.int_of_digits; [| now destruct p | exact Hb].
  simpl.
  pose proof (filter_length_le is_digit_byte (map int_char p)) as Hle.
  rewrite length_map in Hle.
  destruct (Z.ltb_spec max_str_digits
              (Z.of_nat (length (List.filter is_digit_byte
                                             (map int_char p)))))
    as [Hover | _]; [unfold max_str_digits in Hover; lia |].
  unfold bytes_decimal, str_decimal. now rewrite decimal_of_digits.
Qed.

Lemma ints_of_digit_pieces (pieces : list (list ascii)) :
  Forall (fun p => p <> [] /\ forallb is_digit p = true
                   /\ (length p <= 4300)%nat) pieces ->
  ints_of pieces = Ok (map str_decimal pieces).
Proof.
  induction 1 as [| p pieces (Hne & Hp & Hlen) _ IH]; [reflexivity |].
  simpl. rewrite (int_of_digit_piece p Hne Hp Hlen). simpl.
  now rewrite IH.
Qed.

Lemma int_of_bytes_error (s : list byte) (e : exn) :
  int_of_bytes s = Raise e -> e = ValueError.
Proof.
  unfold int_of_bytes. intros Hint.
  repeat match type of Hint with
         | context [match ?x with _ => _ end] => destruct x
         end; congruence.
Qed.

Lemma int_of_str_error (s : list ascii) (e : exn) :
  int_of_str s = Raise e -> e = ValueError.
Proof.
  unfold int_of_str. cbv zeta.
  destruct (int_of_bytes (map int_char s)) as [n | e'] eqn:Hint; simpl.
  - destruct (max_str_digits <? _); congruence.
  - intros He. injection He as <-. exact (int_of_bytes_error _ _ Hint).
Qed.

Lemma ints_of_error (pieces : list (list ascii)) (e : exn) :
  ints_of pieces = Raise e -> e = ValueError.
Proof.
  induction pieces as [| c pieces IH]; [discriminate |]. simpl.
  destruct (int_of_str (strip c)) as [n | e1] eqn:Hc; simpl.
  - destruct (ints_of pieces) as [ns | e2]; simpl; [discriminate |].
    intros He. injection He as <-. now apply IH.
  - intros He. injection He as <-. exact (int_of_str_error _ _ Hc).
Qed.

Lemma ints_of_blank (pieces : list (list ascii)) :
  Exists (fun piece => forallb is_space piece = true) pieces ->
  ints_of pieces = Raise ValueError.
Proof.
  induction 1 as [c pieces Hblank | c pieces _ IH]; simpl.
  - unfold strip. rewrite (Values.lstrip_spaces c Hblank). reflexivity.
  - destruct (int_of_str (strip c)) as [n | e] eqn:Hc; simpl.
    + now rewrite IH.
    + now rewrite (int_of_str_error _ _ Hc).
Qed.

Lemma filter_all {A : Type} (f : A -> bool) (l : list A) :
  forallb f l = true -> List.filter f l = l.
Proof.
  induction l as [| x l IH]; [reflexivity |]. simpl. intros Hall.
  apply andb_true_iff in Hall as [Hx Hall]. rewrite Hx.
  f_equal. exact (IH Hall).
Qed.

(** A piece made of more digits than the limit is refused. *)
Lemma int_of_long_piece (p : list ascii) :
  forallb is_digit p = true ->
  (4300 < length p)%nat ->
  int_of_str (strip p) = Raise ValueError.
Proof.
  intros Hall Hlen. destruct (digits_facts p Hall) as (Hs & _ & Hb).
  rewrite (Values.strip_token p Hs). unfold int_of_str. cbv zeta.
  rewrite Extractor.int_of_digits;
    [| destruct p; [simpl in Hlen; lia | discriminate] | exact Hb].
  simpl. rewrite (filter_all _ _ Hb), length_map.
  destruct (Z.ltb_spec max_str_digits (Z.of_nat (length p)))
    as [_ | Hunder]; [reflexivity | unfold max_str_digits in Hunder; lia].
Qed.

(** The digit limit at work: 4300 digits are read, 4301 are not. *)
Example int_of_str_limit :
  (exists n : Z, int_of_str (repeat "1"%char 4300) = Ok n)
  /\ int_of_str (repeat "1"%char 4301) = Raise ValueError
  /\ parse_channels (repeat "1"%char 4301) = Raise ValueError.
Proof.
  split; [eexists; vm_compute; reflexivity |].
  split; vm_compute; reflexivity.
Qed.

(** X22: [--channels] takes the numbers as they are written: for
    digit strings of at most 4300 digits separated by commas the
    channel list is their decimal values, in the order given, with
    repetitions and with no check that a number is a channel of the
    instrument; the instrument is not asked which channels are
    active. *)
Theorem channels_as_given (pieces : list (list ascii))
    (tra : Z -> option (list ascii)) :
  pieces <> [] ->
  Forall (fun p => p <> [] /\ forallb is_digit p = true
                   /\ (length p <= 4300)%nat) pieces ->
  select_channels (Some (join_commas pieces)) tra
  = Ok (map str_decimal pieces).
Proof.
  intros Hne Hall. destruct pieces as [| p pieces]; [congruence |].
  assert (Hcommas :
            Forall (fun q =>
                      forallb (fun c => negb (Ascii.eqb c ","%char)) q = true)
                   (p :: pieces)).
  { eapply Forall_impl; [exact Hall |]. intros q (_ & Hq & _).
    now destruct (digits_facts q Hq) as (_ & H2 & _). }
  apply Forall_cons in Hcommas as [Hp Hrest].
  assert (Hsplit : split_on ","%char [] (join_commas (p :: pieces))
                   = p :: pieces)
    by exact (split_on_join pieces Hrest p [] Hp).
  assert (Hparse : parse_channels (join_commas (p :: pieces))
                   = Ok (map str_decimal (p :: pieces))).
  { unfold parse_channels. rewrite Hsplit.
    now apply ints_of_digit_pieces. }
  unfold select_channels.
  destruct (join_commas (p :: pieces)) as [| c s] eqn:Hjoin;
    [| exact Hparse].
  apply Forall_cons in Hall as [(Hpne & _ & _) _].
  simpl in Hjoin. destruct p; [congruence | discriminate Hjoin].
Qed.

Lemma channels_as_given_witness :
  select_channels (Some (str_of "3,1,9,1")) (fun _ => None)
  = Ok [3; 1; 9; 1].
Proof.
  apply (channels_as_given [str_of "3"; str_of "1"; str_of "9"; str_of "1"]
           (fun _ => None)); [discriminate |].
  repeat constructor; (discriminate || (simpl; lia)).
Defined.

(** X23: a piece of [--channels] that is empty or blank, as after a
    doubled or a final comma, makes the channel list fail with
    [ValueError]; no piece is skipped. *)
Theorem blank_channel_rejected (arg : list ascii) :
  Exists (fun piece => forallb is_space piece = true)
         (split_on ","%char [] arg) ->
  parse_channels arg = Raise ValueError.
Proof. intros Hblank. now apply ints_of_blank. Qed.

Lemma blank_channel_rejected_witness :
  parse_channels (str_of "1,,3") = Raise ValueError
  /\ parse_channels (str_of "1, ") = Raise ValueError.
Proof.
  split.
  - apply (blank_channel_rejected (str_of "1,,3")).
    apply Exists_cons_tl, Exists_cons_hd. reflexivity.
  - apply (blank_channel_rejected (str_of "1, ")).
    apply Exists_cons_tl, Exists_cons_hd. reflexivity.
Defined.

End Arguments.
